(** * gopher3d: the rendering core of [main.go]

    A shallow embedding of the Android demo that draws a 3D gopher:
    the package-level state ([pieces], [program], the attribute and
    uniform handles, [touchLoc]), the one-time initialisation [initGL],
    the callbacks [touch] and [draw], and [flateBytes].

    - [float32] values are IEEE-754 binary32 numbers, modelled with the
      executable specification [SpecFloat] at precision 24 and maximal
      exponent 128.
    - The OpenGL driver, [glutil], [compress/flate] and the [f32] maths
      package are external to the repository.  The calls made to them are
      recorded in a trace of [event]s; what they return is read from a
      [Driver] (which may depend on the calls made so far) and from a [Lib]
      of pure functions.
    - [log.Fatal] ends the process: a computation either returns or exits.
    - [toBytes] is never called and is left out. *)

From Stdlib Require Import ZArith List String Bool Lia.
From Stdlib Require Import Floats.SpecFloat.
Import ListNotations.

Local Open Scope Z_scope.

(** ** binary32 arithmetic *)

Definition float32 : Type := spec_float.

Module F32.

Definition prec : Z := 24.
Definition emax : Z := 128.

Definition add : float32 -> float32 -> float32 := SFadd prec emax.
Definition mul : float32 -> float32 -> float32 := SFmul prec emax.
Definition div : float32 -> float32 -> float32 := SFdiv prec emax.
Definition neg : float32 -> float32 := SFopp.

(** The float32 nearest to the rational [n/d] (ties to even): how the Go
    compiler converts a numeric constant to [float32].  The quotient of
    the two integers is rounded once. *)
Definition lit (n d : positive) : float32 :=
  SFdiv prec emax (S754_finite false n 0) (S754_finite false d 0).

Definition zero : float32 := S754_zero false.
Definition one : float32 := Eval vm_compute in lit 1 1.
Definition two : float32 := Eval vm_compute in lit 2 1.
Definition five : float32 := Eval vm_compute in lit 5 1.
Definition half : float32 := Eval vm_compute in lit 1 2.
Definition one_and_half : float32 := Eval vm_compute in lit 3 2.

(** [float32(math.Pi)] and [math.Pi/4] as a float32 constant; [math.Pi]
    is the exact decimal constant of Go's [math] package. *)
Definition math_Pi_num : positive :=
  314159265358979323846264338327950288419716939937510582097494459.
Definition math_Pi_den : positive :=
  100000000000000000000000000000000000000000000000000000000000000.
Definition pi : float32 := Eval vm_compute in lit math_Pi_num math_Pi_den.
Definition pi_4 : float32 :=
  Eval vm_compute in lit math_Pi_num (4 * math_Pi_den).

(** A finite, non-zero number. *)
Definition finite_nonzero (x : float32) : bool :=
  match x with S754_finite _ _ _ => true | _ => false end.

(** A normal number whose half is still normal. *)
Definition halvable (x : float32) : bool :=
  match x with
  | S754_finite _ m e =>
      (Zpos (digits2_pos m) =? prec) && (-147 <=? e) && (e <=? emax - prec)
  | _ => false
  end.

End F32.

(** ** Vectors, matrices and geometry ([f32], [geom]) *)

Record Vec3 := mkVec3 { v3x : float32; v3y : float32; v3z : float32 }.
Record Vec4 :=
  mkVec4 { v4x : float32; v4y : float32; v4z : float32; v4w : float32 }.
(** [f32.Mat4] is [[4]Vec4]. *)
Record Mat4 := mkMat4 { row0 : Vec4; row1 : Vec4; row2 : Vec4; row3 : Vec4 }.

(** The zero value [f32.Mat4{}]. *)
Definition Vec4_zero : Vec4 := mkVec4 F32.zero F32.zero F32.zero F32.zero.
Definition Mat4_zero : Mat4 := mkMat4 Vec4_zero Vec4_zero Vec4_zero Vec4_zero.

(** [geom.Pt] is a [float32]. *)
Record Point := mkPoint { X : float32; Y : float32 }.
(** The package variables [geom.Width] and [geom.Height]. *)
Record Geom := mkGeom { Width : float32; Height : float32 }.

(** [event.Touch]. *)
Record Touch := mkTouch { touchID : Z; touchType : Z; Loc : Point }.

(** ** OpenGL handles and enumerants ([gl]) *)

Record Program := mkProgram { programValue : Z }.
Record Buffer := mkBuffer { bufferValue : Z }.
Record Attrib := mkAttrib { attribValue : Z }.
Record Uniform := mkUniform { uniformValue : Z }.

Module gl.
Definition DEPTH_TEST : Z := 0x0B71.
Definition ARRAY_BUFFER : Z := 0x8892.
Definition STATIC_DRAW : Z := 0x88E4.
Definition FLOAT : Z := 0x1406.
Definition TRIANGLES : Z := 0x0004.
Definition DEPTH_BUFFER_BIT : Z := 0x00000100.
Definition COLOR_BUFFER_BIT : Z := 0x00004000.
End gl.

(** ** Calls that leave the program *)

Inductive event : Type :=
| gl_Enable (cap : Z)
| glutil_CreateProgram (vs fs : string) (res : Program * option string)
| log_Printf (msg : string)
| log_PrintTouch (t : Touch)
| log_Fatal (err : string)
| gl_GenBuffer (res : Buffer)
| gl_BindBuffer (target : Z) (b : Buffer)
| gl_BufferData (target usage : Z) (data : list Byte.byte)
| gl_GetAttribLocation (p : Program) (name : string) (res : Attrib)
| gl_GetUniformLocation (p : Program) (name : string) (res : Uniform)
| gl_UseProgram (p : Program)
| gl_ClearColor (r g b a : float32)
| gl_Clear (mask : Z)
| Uniform_WriteMat4 (u : Uniform) (m : Mat4)
| Uniform_WriteVec4 (u : Uniform) (v : Vec4)
| gl_Uniform3f (u : Uniform) (x y z : float32)
| gl_Uniform4f (u : Uniform) (x y z w : float32)
| gl_EnableVertexAttribArray (a : Attrib)
| gl_DisableVertexAttribArray (a : Attrib)
| gl_VertexAttribPointer
    (a : Attrib) (size ty : Z) (normalized : bool) (stride offset : Z)
| gl_DrawArrays (mode first count : Z)
| debug_DrawFPS.

Definition trace := list event.

(** What the GL side answers.  An answer may depend on every call made
    before it. *)
Record Driver := mkDriver {
  CreateProgram : trace -> string -> string -> Program * option string;
  GenBuffer : trace -> Buffer;
  GetAttribLocation : trace -> Program -> string -> Attrib;
  GetUniformLocation : trace -> Program -> string -> Uniform
}.

(** The pure library functions: [ioutil.ReadAll] of a [flate] reader, and
    the [f32] package.  A [Mat4] method receives the current value of its
    receiver and returns the new one. *)
Record Lib := mkLib {
  flate_ReadAll : list Byte.byte -> list Byte.byte * option string;
  Sin : float32 -> float32;
  Cos : float32 -> float32;
  Perspective : Mat4 -> float32 -> float32 -> float32 -> float32 -> Mat4;
  LookAt : Mat4 -> Vec3 -> Vec3 -> Vec3 -> Mat4;
  Identity : Mat4 -> Mat4;
  Scale : Mat4 -> Mat4 -> float32 -> float32 -> float32 -> Mat4
}.

(** ** Computations: a trace is threaded, and [log.Fatal] exits *)

Inductive outcome (A : Type) : Type :=
| Returned (a : A) (t : trace)
| Exited (t : trace).
Arguments Returned {A} a t.
Arguments Exited {A} t.

Definition M (A : Type) : Type := trace -> outcome A.

Definition ret {A} (a : A) : M A := fun t => Returned a t.

Definition bind {A B} (m : M A) (k : A -> M B) : M B :=
  fun t => match m t with
           | Returned a t' => k a t'
           | Exited t' => Exited t'
           end.

Declare Scope go_scope.
Delimit Scope go_scope with go.
Notation "x <- m ;; k" := (bind m (fun x => k))
  (at level 100, m at next level, right associativity) : go_scope.
Notation "m ;; k" := (bind m (fun _ => k))
  (at level 100, right associativity) : go_scope.
Local Open Scope go_scope.

(** A call with no result. *)
Definition emit (e : event) : M unit := fun t => Returned tt (t ++ [e]).

(** A call whose result the outside decides, knowing the calls so far. *)
Definition ask {A} (answer : trace -> A) (e : A -> event) : M A :=
  fun t => let a := answer t in Returned a (t ++ [e a]).

(** [log.Fatal(err)]: print, then [os.Exit(1)]. *)
Definition fatal {A} (err : string) : M A :=
  fun t => Exited (t ++ [log_Fatal err]).

(** [for _, x := range xs], each iteration replacing the element. *)
Fixpoint range {A} (body : A -> M A) (xs : list A) : M (list A) :=
  match xs with
  | [] => ret []
  | x :: rest =>
      x' <- body x ;;
      rest' <- range body rest ;;
      ret (x' :: rest')
  end.

(** [for _, x := range xs] with a body that changes no element. *)
Fixpoint range_ {A} (body : A -> M unit) (xs : list A) : M unit :=
  match xs with
  | [] => ret tt
  | x :: rest => body x ;; range_ body rest
  end.

(** ** The program text *)

(** The embedded, flate-compressed geometry of [gopher.go] (generated by
    [gengopher.go] from [gopher.obj]): one vertex stream and one normal
    stream per part of the model. *)
Record Assets := mkAssets {
  Body_Sphere_002 : list Byte.byte;
  Body_Sphere_002Normals : list Byte.byte;
  Tail_Sphere_015 : list Byte.byte;
  Tail_Sphere_015Normals : list Byte.byte;
  Foot_R_001_Sphere_014 : list Byte.byte;
  Foot_R_001_Sphere_014Normals : list Byte.byte;
  Foot_R_Sphere_013 : list Byte.byte;
  Foot_R_Sphere_013Normals : list Byte.byte;
  Hnad_L_Sphere_012 : list Byte.byte;
  Hnad_L_Sphere_012Normals : list Byte.byte;
  Hand_R_Sphere_011 : list Byte.byte;
  Hand_R_Sphere_011Normals : list Byte.byte;
  Tooth_Sphere_009 : list Byte.byte;
  Tooth_Sphere_009Normals : list Byte.byte;
  Ear_R_Sphere_008 : list Byte.byte;
  Ear_R_Sphere_008Normals : list Byte.byte;
  Ear_L_Sphere_007 : list Byte.byte;
  Ear_L_Sphere_007Normals : list Byte.byte;
  Nose_Sphere : list Byte.byte;
  Nose_SphereNormals : list Byte.byte;
  Eye_R_Sphere_006 : list Byte.byte;
  Eye_R_Sphere_006Normals : list Byte.byte;
  Eye_L_Sphere_004 : list Byte.byte;
  Eye_L_Sphere_004Normals : list Byte.byte
}.

Definition coordsPerVertex : Z := 3.

Definition vertexShader : string := "
uniform vec3 lightDirection;
uniform vec4 lightAmbientColor;
uniform vec4 lightDiffuseColor;

uniform vec4 materialAmbientFactor;
uniform vec4 materialDiffuseFactor;

uniform mat4 model;
uniform mat4 view;
uniform mat4 projection;

attribute vec4 position;
attribute vec3 normal;

varying vec4 color;

void main() {
	mat4 mv = view * model;
	mat4 mvp = projection * mv;

	vec3 eyespace = vec3(mv * vec4(normal, 0.0));
	eyespace = eyespace / length(eyespace);

	float direction = max(0.0, dot(eyespace, lightDirection));

	vec4 ambient = lightAmbientColor * materialAmbientFactor;
	vec4 diffuse = direction * lightDiffuseColor * materialDiffuseFactor;

	color = ambient + diffuse;
	gl_Position = mvp * position;
}
".

Definition fragmentShader : string := "
precision mediump float;
varying vec4 color;
void main() {
	gl_FragColor = color;
}".

Record piece := mkPiece {
  (* flate compressed *)
  vertexData : list Byte.byte;
  normalData : list Byte.byte;
  color : Vec4;
  (* populated at GL initialization *)
  verticies : Buffer;
  normals : Buffer;
  vertexCount : Z
}.

Definition gopherSkin : Vec4 := (* brownish *)
  Eval vm_compute in
  mkVec4 (F32.lit 761 1000) (F32.lit 442 1000) (F32.lit 180 1000) F32.one.
Definition gopherFur : Vec4 := (* blue *)
  Eval vm_compute in
  mkVec4 F32.zero (F32.lit 537 1000) (F32.lit 8 10) F32.one.
Definition white : Vec4 := mkVec4 F32.one F32.one F32.one F32.one.

(** A composite literal of [piece]: the fields it leaves out are zero. *)
Definition piece_lit (v n : list Byte.byte) (c : Vec4) : piece :=
  mkPiece v n c (mkBuffer 0) (mkBuffer 0) 0.

Definition pieces_lit (a : Assets) : list piece :=
  [ piece_lit (Body_Sphere_002 a) (Body_Sphere_002Normals a) gopherFur;
    piece_lit (Tail_Sphere_015 a) (Tail_Sphere_015Normals a) gopherSkin;
    piece_lit (Foot_R_001_Sphere_014 a) (Foot_R_001_Sphere_014Normals a) gopherSkin;
    piece_lit (Foot_R_Sphere_013 a) (Foot_R_Sphere_013Normals a) gopherSkin;
    piece_lit (Hnad_L_Sphere_012 a) (Hnad_L_Sphere_012Normals a) gopherSkin;
    piece_lit (Hand_R_Sphere_011 a) (Hand_R_Sphere_011Normals a) gopherSkin;
    piece_lit (Tooth_Sphere_009 a) (Tooth_Sphere_009Normals a) white;
    piece_lit (Ear_R_Sphere_008 a) (Ear_R_Sphere_008Normals a) gopherFur;
    piece_lit (Ear_L_Sphere_007 a) (Ear_L_Sphere_007Normals a) gopherFur;
    piece_lit (Nose_Sphere a) (Nose_SphereNormals a) gopherSkin;
    piece_lit (Eye_R_Sphere_006 a) (Eye_R_Sphere_006Normals a) white;
    piece_lit (Eye_L_Sphere_004 a) (Eye_L_Sphere_004Normals a) white ].

(** The package-level variables. *)
Record globals := mkGlobals {
  pieces : list piece;
  program : Program;
  position : Attrib;
  normal : Attrib;
  lightDirection : Uniform;
  lightAmbientColor : Uniform;
  lightDiffuseColor : Uniform;
  materialAmbientFactor : Uniform;
  materialDiffuseFactor : Uniform;
  materialShininess : Uniform;
  model : Uniform;
  view : Uniform;
  projection : Uniform;
  touchLoc : Point
}.

(** The state the process starts in. *)
Definition globals_init (a : Assets) : globals :=
  let u := mkUniform 0 in
  mkGlobals (pieces_lit a) (mkProgram 0) (mkAttrib 0) (mkAttrib 0)
            u u u u u u u u u (mkPoint F32.zero F32.zero).

Definition set_program (g : globals) (p : Program) : globals :=
  mkGlobals (pieces g) p (position g) (normal g) (lightDirection g)
    (lightAmbientColor g) (lightDiffuseColor g) (materialAmbientFactor g)
    (materialDiffuseFactor g) (materialShininess g) (model g) (view g)
    (projection g) (touchLoc g).

Definition set_pieces (g : globals) (ps : list piece) : globals :=
  mkGlobals ps (program g) (position g) (normal g) (lightDirection g)
    (lightAmbientColor g) (lightDiffuseColor g) (materialAmbientFactor g)
    (materialDiffuseFactor g) (materialShininess g) (model g) (view g)
    (projection g) (touchLoc g).

Definition set_touchLoc (g : globals) (l : Point) : globals :=
  mkGlobals (pieces g) (program g) (position g) (normal g) (lightDirection g)
    (lightAmbientColor g) (lightDiffuseColor g) (materialAmbientFactor g)
    (materialDiffuseFactor g) (materialShininess g) (model g) (view g)
    (projection g) l.

Section Program.

Variable lib : Lib.
Variable drv : Driver.

Definition flateBytes (v : list Byte.byte) : M (list Byte.byte) :=
  let (b, err) := flate_ReadAll lib v in
  match err with
  | Some e => fatal e
  | None => ret b
  end.

(** The body of the loop of [initGL]. *)
Definition initGL_piece (p : piece) : M piece :=
  vData <- flateBytes (vertexData p) ;;
  nData <- flateBytes (normalData p) ;;
  verts <- ask (GenBuffer drv) gl_GenBuffer ;;
  norms <- ask (GenBuffer drv) gl_GenBuffer ;;
  (* four bytes per float32, three per vertex *)
  let count := Z.of_nat (List.length vData) / 4 / coordsPerVertex in
  emit (gl_BindBuffer gl.ARRAY_BUFFER verts) ;;
  emit (gl_BufferData gl.ARRAY_BUFFER gl.STATIC_DRAW vData) ;;
  emit (gl_BindBuffer gl.ARRAY_BUFFER norms) ;;
  emit (gl_BufferData gl.ARRAY_BUFFER gl.STATIC_DRAW nData) ;;
  ret (mkPiece (vertexData p) (normalData p) (color p) verts norms count).

Definition initMVP (g : globals) : M unit :=
  emit (gl_UseProgram (program g)).

Definition attrib (p : Program) (name : string) : M Attrib :=
  ask (fun t => GetAttribLocation drv t p name) (gl_GetAttribLocation p name).

Definition uniform (p : Program) (name : string) : M Uniform :=
  ask (fun t => GetUniformLocation drv t p name)
      (gl_GetUniformLocation p name).

Definition initGL (g : globals) : M globals :=
  emit (gl_Enable gl.DEPTH_TEST) ;;
  r <- ask (fun t => CreateProgram drv t vertexShader fragmentShader)
           (glutil_CreateProgram vertexShader fragmentShader) ;;
  let g := set_program g (fst r) in
  match snd r with
  | Some err =>
      emit (log_Printf (String.append "error creating GL program: " err)) ;;
      ret g
  | None =>
      ps <- range initGL_piece (pieces g) ;;
      let g := set_pieces g ps in
      position' <- attrib (program g) "position" ;;
      normal' <- attrib (program g) "normal" ;;
      lightDirection' <- uniform (program g) "lightDirection" ;;
      lightAmbientColor' <- uniform (program g) "lightAmbientColor" ;;
      lightDiffuseColor' <- uniform (program g) "lightDiffuseColor" ;;
      materialAmbientFactor' <-
        uniform (program g) "materialAmbientFactor" ;;
      materialDiffuseFactor' <-
        uniform (program g) "materialDiffuseFactor" ;;
      model' <- uniform (program g) "model" ;;
      view' <- uniform (program g) "view" ;;
      projection' <- uniform (program g) "projection" ;;
      let g :=
        mkGlobals (pieces g) (program g) position' normal' lightDirection'
          lightAmbientColor' lightDiffuseColor' materialAmbientFactor'
          materialDiffuseFactor' (materialShininess g) model' view'
          projection' (touchLoc g) in
      initMVP g ;;
      ret g
  end.

Definition touch (t : Touch) (g : globals) : M globals :=
  emit (log_PrintTouch t) ;;
  ret (set_touchLoc g (Loc t)).

(** The camera of a frame: [frac], [y] and [z] of [draw], and the three
    vectors handed to [LookAt]. *)
Definition frac (geo : Geom) (g : globals) : float32 :=
  F32.div (X (touchLoc g)) (Width geo).

Definition cameraY (geo : Geom) (g : globals) : float32 :=
  F32.mul F32.five
          (Sin lib (F32.mul (F32.mul F32.two F32.pi) (frac geo g))).

Definition cameraZ (geo : Geom) (g : globals) : float32 :=
  F32.mul F32.five
          (Cos lib (F32.mul (F32.mul F32.two F32.pi) (frac geo g))).

Definition eye (geo : Geom) (g : globals) : Vec3 :=
  mkVec3 F32.zero (cameraY geo g) (F32.neg (cameraZ geo g)).
Definition center : Vec3 := mkVec3 F32.zero F32.zero F32.zero.
Definition up : Vec3 := mkVec3 (F32.neg F32.one) F32.zero F32.zero.

Definition scale (geo : Geom) (g : globals) : float32 :=
  F32.add (F32.div (Y (touchLoc g)) (Height geo)) F32.half.

(** The body of the loop of [draw]. *)
Definition draw_piece (g : globals) (p : piece) : M unit :=
  emit (Uniform_WriteVec4 (lightDiffuseColor g) (color p)) ;;
  emit (Uniform_WriteVec4 (lightAmbientColor g) (color p)) ;;
  emit (gl_BindBuffer gl.ARRAY_BUFFER (verticies p)) ;;
  emit (gl_VertexAttribPointer (position g) coordsPerVertex gl.FLOAT
                               false 0 0) ;;
  emit (gl_BindBuffer gl.ARRAY_BUFFER (normals p)) ;;
  emit (gl_VertexAttribPointer (normal g) coordsPerVertex gl.FLOAT
                               false 0 0) ;;
  emit (gl_DrawArrays gl.TRIANGLES 0 (vertexCount p)).

Definition draw (geo : Geom) (g : globals) : M globals :=
  g <- (if programValue (program g) =? 0
        then
          g' <- initGL g ;;
          emit (log_Printf "example/basic rendering initialized") ;;
          ret g'
        else ret g) ;;
  emit (gl_ClearColor F32.zero F32.zero F32.zero F32.one) ;;
  emit (gl_Clear (Z.lor gl.DEPTH_BUFFER_BIT gl.COLOR_BUFFER_BIT)) ;;
  emit (gl_UseProgram (program g)) ;;
  let mProj := Mat4_zero in
  let mProj :=
    Perspective lib mProj F32.pi_4 (F32.div (Width geo) (Height geo))
                (F32.lit 1 10) (F32.lit 200 1) in
  emit (Uniform_WriteMat4 (projection g) mProj) ;;
  let mView := Mat4_zero in
  (* Debugging note: pos 0,5,0 leaves you looking right at the gopher *)
  let mView := LookAt lib mView (eye geo g) center up in
  emit (Uniform_WriteMat4 (view g) mView) ;;
  (* Gopher model starts on the origin.
     Her up is -x, her forward is +z. *)
  let mModel := Mat4_zero in
  let mModel := Identity lib mModel in
  let mModel :=
    Scale lib mModel mModel (scale geo g) (scale geo g) (scale geo g) in
  emit (Uniform_WriteMat4 (model g) mModel) ;;
  emit (gl_Uniform3f (lightDirection g) F32.half F32.half F32.zero) ;;
  emit (gl_Uniform4f (materialDiffuseFactor g) (F32.lit 8 10) (F32.lit 8 10)
                     (F32.lit 8 10) F32.one) ;;
  emit (gl_Uniform4f (materialAmbientFactor g) F32.half F32.half F32.half
                     F32.half) ;;
  emit (gl_EnableVertexAttribArray (normal g)) ;;
  emit (gl_EnableVertexAttribArray (position g)) ;;
  range_ (draw_piece g) (pieces g) ;;
  emit (gl_DisableVertexAttribArray (normal g)) ;;
  emit (gl_DisableVertexAttribArray (position g)) ;;
  emit debug_DrawFPS ;;
  ret g.

End Program.

(** ** The application: [app.Run] with the callbacks [Draw] and [Touch] *)

(** A callback the framework makes; before a [Draw] it has set
    [geom.Width] and [geom.Height]. *)
Inductive callback : Type :=
| Draw (geo : Geom)
| TouchEvent (t : Touch).

Definition callback_run (lib : Lib) (drv : Driver) (c : callback)
  (g : globals) : M globals :=
  match c with
  | Draw geo => draw lib drv geo g
  | TouchEvent t => touch t g
  end.

(** The callbacks are run one after the other, until one exits. *)
Fixpoint run (lib : Lib) (drv : Driver) (cs : list callback) (g : globals)
  : M globals :=
  match cs with
  | [] => ret g
  | c :: rest => g' <- callback_run lib drv c g ;; run lib drv rest g'
  end.

(** The states the process can be in, with the calls made so far. *)
Inductive reachable (lib : Lib) (drv : Driver) (a : Assets)
  : globals -> trace -> Prop :=
| reachable_start : reachable lib drv a (globals_init a) []
| reachable_step g t c g' t' :
    reachable lib drv a g t ->
    callback_run lib drv c g t = Returned g' t' ->
    reachable lib drv a g' t'.

(** ** Reading a trace *)

Definition isDrawArrays (e : event) : bool :=
  match e with gl_DrawArrays _ _ _ => true | _ => false end.

Definition isGenBuffer (e : event) : bool :=
  match e with gl_GenBuffer _ => true | _ => false end.

Definition isCreateProgram (e : event) : bool :=
  match e with glutil_CreateProgram _ _ _ => true | _ => false end.

Definition isLookup (e : event) : bool :=
  match e with
  | gl_GetAttribLocation _ _ _ | gl_GetUniformLocation _ _ _ => true
  | _ => false
  end.

Definition isClear (e : event) : bool :=
  match e with gl_ClearColor _ _ _ _ | gl_Clear _ => true | _ => false end.

Definition isUniformWrite (e : event) : bool :=
  match e with
  | Uniform_WriteMat4 _ _ | Uniform_WriteVec4 _ _
  | gl_Uniform3f _ _ _ _ | gl_Uniform4f _ _ _ _ _ => true
  | _ => false
  end.

(** The calls of the loop of [initGL]. *)
Definition isUpload (e : event) : bool :=
  match e with
  | gl_GenBuffer _ | gl_BindBuffer _ _ | gl_BufferData _ _ _ => true
  | _ => false
  end.

Definition isLog (e : event) : bool :=
  match e with
  | log_Printf _ | log_PrintTouch _ | log_Fatal _ => true
  | _ => false
  end.

(** A trace that ends with [log.Fatal], after calls of the loop of
    [initGL] only. *)
Definition fatal_upload (evs : list event) : Prop :=
  exists evs0 err,
    evs = evs0 ++ [log_Fatal err] /\
    Forall (fun e => isUpload e = true) evs0.

(** The calls that only [initGL] makes. *)
Definition isSetup (e : event) : bool :=
  match e with
  | gl_Enable _ | glutil_CreateProgram _ _ _ | gl_GenBuffer _
  | gl_BufferData _ _ _ | gl_GetAttribLocation _ _ _
  | gl_GetUniformLocation _ _ _ => true
  | _ => false
  end.

(** The calls that render: clearing, writing a uniform, drawing. *)
Definition isRender (e : event) : bool :=
  isClear e || isUniformWrite e || isDrawArrays e.

(** The arguments of the [gl.DrawArrays] calls, in order. *)
Fixpoint drawCalls (t : trace) : list (Z * Z * Z) :=
  match t with
  | [] => []
  | gl_DrawArrays mode first count :: t' =>
      (mode, first, count) :: drawCalls t'
  | _ :: t' => drawCalls t'
  end.

(** The matrices written to uniforms, with their slots, in order. *)
Fixpoint matrixWrites (t : trace) : list (Uniform * Mat4) :=
  match t with
  | [] => []
  | Uniform_WriteMat4 u m :: t' => (u, m) :: matrixWrites t'
  | _ :: t' => matrixWrites t'
  end.

Definition count (f : event -> bool) (t : trace) : nat :=
  List.length (filter f t).

(** The calls one frame makes once [initGL] is behind it, for the state
    [g] it then runs in. *)
Definition piece_events (g : globals) (p : piece) : list event :=
  [ Uniform_WriteVec4 (lightDiffuseColor g) (color p);
    Uniform_WriteVec4 (lightAmbientColor g) (color p);
    gl_BindBuffer gl.ARRAY_BUFFER (verticies p);
    gl_VertexAttribPointer (position g) coordsPerVertex gl.FLOAT false 0 0;
    gl_BindBuffer gl.ARRAY_BUFFER (normals p);
    gl_VertexAttribPointer (normal g) coordsPerVertex gl.FLOAT false 0 0;
    gl_DrawArrays gl.TRIANGLES 0 (vertexCount p) ].

Definition frame_events (lib : Lib) (geo : Geom) (g : globals) : list event :=
  [ gl_ClearColor F32.zero F32.zero F32.zero F32.one;
    gl_Clear (Z.lor gl.DEPTH_BUFFER_BIT gl.COLOR_BUFFER_BIT);
    gl_UseProgram (program g);
    Uniform_WriteMat4 (projection g)
      (Perspective lib Mat4_zero F32.pi_4 (F32.div (Width geo) (Height geo))
                   (F32.lit 1 10) (F32.lit 200 1));
    Uniform_WriteMat4 (view g) (LookAt lib Mat4_zero (eye lib geo g) center up);
    Uniform_WriteMat4 (model g)
      (Scale lib (Identity lib Mat4_zero) (Identity lib Mat4_zero)
             (scale geo g) (scale geo g) (scale geo g));
    gl_Uniform3f (lightDirection g) F32.half F32.half F32.zero;
    gl_Uniform4f (materialDiffuseFactor g) (F32.lit 8 10) (F32.lit 8 10)
                 (F32.lit 8 10) F32.one;
    gl_Uniform4f (materialAmbientFactor g) F32.half F32.half F32.half F32.half;
    gl_EnableVertexAttribArray (normal g);
    gl_EnableVertexAttribArray (position g) ]
  ++ flat_map (piece_events g) (pieces g)
  ++ [ gl_DisableVertexAttribArray (normal g);
       gl_DisableVertexAttribArray (position g);
       debug_DrawFPS ].

(** What a computation started after [t] appends, and with which result:
    [Some a] when it returns [a], [None] when it exits. *)
Definition appends {A} (m : M A) (t : trace)
  (Q : option A -> list event -> Prop) : Prop :=
  match m t with
  | Returned a t' => exists evs, t' = t ++ evs /\ Q (Some a) evs
  | Exited t' => exists evs, t' = t ++ evs /\ Q None evs
  end.

(** ** Stand-ins for the outside, to run the program on concrete inputs *)

Module Demo.

Definition byte_of (n : N) : Byte.byte :=
  match Byte.of_N n with Some b => b | None => Byte.x00 end.

(** A deflate stream made of one final stored block: the header byte
    [01], the length and its complement (16 bits each, little endian),
    then the bytes themselves. *)
Definition stored (data : list Byte.byte) : list Byte.byte :=
  let len := N.of_nat (List.length data) in
  Byte.x01 :: byte_of (len mod 256) :: byte_of (len / 256)
    :: byte_of ((65535 - len) mod 256) :: byte_of ((65535 - len) / 256)
    :: data.

(** A decoder of such streams; it reports any other input as corrupt. *)
Definition stored_ReadAll (v : list Byte.byte)
  : list Byte.byte * option string :=
  match v with
  | h :: l0 :: l1 :: n0 :: n1 :: data =>
      let len := (Byte.to_N l0 + 256 * Byte.to_N l1)%N in
      let nlen := (Byte.to_N n0 + 256 * Byte.to_N n1)%N in
      if Byte.eqb h Byte.x01 && (len + nlen =? 65535)%N
         && (N.of_nat (List.length data) =? len)%N
      then (data, None)
      else ([], Some "flate: corrupt input before offset 5"%string)
  | _ => ([], Some "unexpected EOF"%string)
  end.

Definition dot (a b : Vec4) : float32 :=
  F32.add (F32.add (F32.add (F32.mul (v4x a) (v4x b))
                            (F32.mul (v4y a) (v4y b)))
                   (F32.mul (v4z a) (v4z b)))
          (F32.mul (v4w a) (v4w b)).

Definition col (m : Mat4) (f : Vec4 -> float32) : Vec4 :=
  mkVec4 (f (row0 m)) (f (row1 m)) (f (row2 m)) (f (row3 m)).

Definition mul_row (r : Vec4) (b : Mat4) : Vec4 :=
  mkVec4 (dot r (col b v4x)) (dot r (col b v4y))
         (dot r (col b v4z)) (dot r (col b v4w)).

Definition Mul (a b : Mat4) : Mat4 :=
  mkMat4 (mul_row (row0 a) b) (mul_row (row1 a) b)
         (mul_row (row2 a) b) (mul_row (row3 a) b).

Definition identity : Mat4 :=
  let o := F32.zero in
  let i := F32.one in
  mkMat4 (mkVec4 i o o o) (mkVec4 o i o o) (mkVec4 o o i o) (mkVec4 o o o i).

Definition scaling (x y z : float32) : Mat4 :=
  let o := F32.zero in
  mkMat4 (mkVec4 x o o o) (mkVec4 o y o o) (mkVec4 o o z o)
         (mkVec4 o o o F32.one).

Definition widen (v : Vec3) : Vec4 :=
  mkVec4 (v3x v) (v3y v) (v3z v) F32.zero.

(** [Sin] and [Cos] are the small-angle approximations, exact at zero;
    [Perspective] and [LookAt] store their arguments in the matrix;
    [Identity] and [Scale] are the matrix operations themselves. *)
Definition lib : Lib :=
  mkLib stored_ReadAll
        (fun x => x)
        (fun _ => F32.one)
        (fun m fovy aspect near far =>
           mkMat4 (mkVec4 fovy aspect near far) (row1 m) (row2 m) (row3 m))
        (fun m eye center up =>
           mkMat4 (widen eye) (widen center) (widen up) (row3 m))
        (fun _ => identity)
        (fun _ src x y z => Mul src (scaling x y z)).

Definition location (names : list string) (name : string) : Z :=
  (fix find (ns : list string) (i : Z) : Z :=
     match ns with
     | [] => -1
     | n :: rest => if String.eqb n name then i else find rest (i + 1)
     end) names 0.

Definition attributes : list string := ["position"; "normal"]%string.
Definition uniforms : list string :=
  ["lightDirection"; "lightAmbientColor"; "lightDiffuseColor";
   "materialAmbientFactor"; "materialDiffuseFactor"; "model"; "view";
   "projection"]%string.

(** A driver that links the program at once and hands out fresh buffer
    names 1, 2, 3, ... *)
Definition driver : Driver :=
  mkDriver (fun _ _ _ => (mkProgram 1, None))
           (fun t => mkBuffer (1 + Z.of_nat (count isGenBuffer t)))
           (fun _ _ name => mkAttrib (location attributes name))
           (fun _ _ name => mkUniform (location uniforms name)).

(** A driver on which program creation always fails, the way [glutil]
    reports it: the zero program and an error. *)
Definition failing : Driver :=
  mkDriver (fun _ _ _ =>
              (mkProgram 0, Some "glutil: no programs available"%string))
           (GenBuffer driver) (GetAttribLocation driver)
           (GetUniformLocation driver).

(** A driver on which program creation fails twice, then succeeds. *)
Definition flaky : Driver :=
  mkDriver (fun t vs fs =>
              if (count isCreateProgram t <? 2)%nat
              then CreateProgram failing t vs fs
              else CreateProgram driver t vs fs)
           (GenBuffer driver) (GetAttribLocation driver)
           (GetUniformLocation driver).

(** Geometry of [n] bytes. *)
Definition bytes (n : nat) : list Byte.byte := repeat Byte.x00 n.

(** Twelve parts of one triangle each: 36 bytes of positions and 36
    bytes of normals. *)
Definition assets : Assets :=
  let s := stored (bytes 36) in
  mkAssets s s s s s s s s s s s s s s s s s s s s s s s s.

(** The same, but the body has 13 bytes of positions and 5 of normals. *)
Definition ragged : Assets :=
  let s := stored (bytes 36) in
  mkAssets (stored (bytes 13)) (stored (bytes 5))
           s s s s s s s s s s s s s s s s s s s s s s.

(** The same as [assets], but the positions of the fourth part are not a
    deflate stream. *)
Definition corrupt : Assets :=
  let s := stored (bytes 36) in
  mkAssets s s s s s s [Byte.xff; Byte.xff] s s s s s s s s s s s s s s s s
           s.

Definition screen : Geom := mkGeom (F32.lit 480 1) (F32.lit 800 1).

End Demo.

(** ** What [initGL] does to a piece *)

Definition decompresses (lib : Lib) (v : list Byte.byte) : bool :=
  match snd (flate_ReadAll lib v) with
  | None => true
  | Some _ => false
  end.

Definition decompressed (lib : Lib) (v : list Byte.byte) : list Byte.byte :=
  fst (flate_ReadAll lib v).

(** Both streams of [p] decompress, and [p'] is [p] with its vertex count
    set from the decompressed positions. *)
Definition initialised (lib : Lib) (p p' : piece) : Prop :=
  decompresses lib (vertexData p) = true /\
  decompresses lib (normalData p) = true /\
  vertexData p' = vertexData p /\
  normalData p' = normalData p /\
  color p' = color p /\
  vertexCount p' =
    Z.of_nat (List.length (decompressed lib (vertexData p))) / 4
    / coordsPerVertex.

(** One of the two streams of [p] does not decompress. *)
Definition corrupted (lib : Lib) (p : piece) : Prop :=
  decompresses lib (vertexData p) = false \/
  decompresses lib (normalData p) = false.

(** What [glutil.CreateProgram] answers when [initGL] starts after [t]. *)
Definition created (drv : Driver) (t : trace) : Program * option string :=
  CreateProgram drv (t ++ [gl_Enable gl.DEPTH_TEST]) vertexShader
                fragmentShader.

(** The calls of an attempt of [initGL] that fails with [err]. *)
Definition failed_attempt (err : string) : list event :=
  [ gl_Enable gl.DEPTH_TEST;
    glutil_CreateProgram vertexShader fragmentShader
                         (mkProgram 0, Some err);
    log_Printf (String.append "error creating GL program: " err) ].

(** Two pieces with the same embedded data and colour. *)
Definition same_asset (p0 p : piece) : Prop :=
  vertexData p = vertexData p0 /\
  normalData p = normalData p0 /\
  color p = color p0.

(** Modelled from the spec: the format of the embedded geometry of
    [gopher.go], which is not part of the sources at hand.  Each of the two
    streams of a piece decompresses to a number of bytes that is a positive
    multiple of 12, the same for both. *)
Definition asset_format (lib : Lib) (p : piece) : Prop :=
  decompresses lib (vertexData p) = true /\
  decompresses lib (normalData p) = true /\
  (0 < List.length (decompressed lib (vertexData p)))%nat /\
  (List.length (decompressed lib (vertexData p)) mod 12 = 0)%nat /\
  List.length (decompressed lib (normalData p)) =
    List.length (decompressed lib (vertexData p)).

(** ** [toBytes] *)

(** [byte(v)] for an unsigned [v]: its low 8 bits. *)
Definition byte_of_Z (v : Z) : Byte.byte :=
  match Byte.of_N (Z.to_N (Z.land v 255)) with
  | Some b => b
  | None => Byte.x00
  end.

(** [binary.LittleEndian.PutUint32]. *)
Definition PutUint32 (v : Z) : list Byte.byte :=
  [ byte_of_Z v; byte_of_Z (Z.shiftr v 8); byte_of_Z (Z.shiftr v 16);
    byte_of_Z (Z.shiftr v 24) ].

(** [binary.LittleEndian.Uint32], on the first four bytes. *)
Definition Uint32 (b : list Byte.byte) : Z :=
  match b with
  | b0 :: b1 :: b2 :: b3 :: _ =>
      Z.lor (Z.of_N (Byte.to_N b0))
        (Z.lor (Z.shiftl (Z.of_N (Byte.to_N b1)) 8)
           (Z.lor (Z.shiftl (Z.of_N (Byte.to_N b2)) 16)
                  (Z.shiftl (Z.of_N (Byte.to_N b3)) 24)))
  | _ => 0
  end.

Section Bytes.

(** [math.Float32bits]: the IEEE-754 bit pattern of a [float32], a
    [uint32]. *)
Variable Float32bits : float32 -> Z.

(** [binary.Write(buf, binary.LittleEndian, v)] for a slice of [float32]
    and a [bytes.Buffer]: every element is written as the four bytes of
    its bit pattern; no error is returned for this type of data. *)
Definition binary_Write_LittleEndian (v : list float32)
  : list Byte.byte * option string :=
  (flat_map (fun x => PutUint32 (Float32bits x)) v, None).

Definition toBytes (v : list float32) : M (list Byte.byte) :=
  let (buf, err) := binary_Write_LittleEndian v in
  match err with
  | Some e => fatal e
  | None => ret buf
  end.

End Bytes.

(** ** More readings of a trace *)

Definition isBufferData (e : event) : bool :=
  match e with gl_BufferData _ _ _ => true | _ => false end.

(** The vectors written to uniforms, with their slots, in order. *)
Fixpoint vec4Writes (t : trace) : list (Uniform * Vec4) :=
  match t with
  | [] => []
  | Uniform_WriteVec4 u v :: t' => (u, v) :: vec4Writes t'
  | _ :: t' => vec4Writes t'
  end.

(** The attributes described by [gl.VertexAttribPointer], each with the
    buffer bound to [target] at that moment, in order; [b] is the buffer
    bound at the start. *)
Fixpoint attribPointers (target : Z) (b : Buffer) (t : trace)
  : list (Attrib * Buffer) :=
  match t with
  | [] => []
  | gl_BindBuffer target' b' :: t' =>
      attribPointers target (if target' =? target then b' else b) t'
  | gl_VertexAttribPointer a _ _ _ _ _ :: t' =>
      (a, b) :: attribPointers target b t'
  | _ :: t' => attribPointers target b t'
  end.

(** The buffer objects on the GL side: the buffer bound to each target and
    the data store of each buffer name.  [gl.BindBuffer] binds;
    [gl.BufferData] replaces the store of the buffer bound to its target,
    and does nothing when that is the reserved name 0. *)
Record buffers := mkBuffers {
  binding : Z -> Buffer;
  store : Z -> option (list Byte.byte)
}.

Definition buffers_step (s : buffers) (e : event) : buffers :=
  match e with
  | gl_BindBuffer target b =>
      mkBuffers (fun x => if x =? target then b else binding s x) (store s)
  | gl_BufferData target _ data =>
      let name := bufferValue (binding s target) in
      if name =? 0 then s
      else mkBuffers (binding s)
                     (fun n => if n =? name then Some data else store s n)
  | _ => s
  end.

Definition buffers_after (t : trace) (s : buffers) : buffers :=
  fold_left buffers_step t s.

(** The buffer names of a piece, and of all pieces. *)
Definition buffer_names (ps : list piece) : list Z :=
  flat_map (fun p => [bufferValue (verticies p); bufferValue (normals p)]) ps.

(** The calls of one round of the loop of [initGL] that made [p']. *)
Definition upload_events (lib : Lib) (p' : piece) : list event :=
  [ gl_GenBuffer (verticies p');
    gl_GenBuffer (normals p');
    gl_BindBuffer gl.ARRAY_BUFFER (verticies p');
    gl_BufferData gl.ARRAY_BUFFER gl.STATIC_DRAW
                  (decompressed lib (vertexData p'));
    gl_BindBuffer gl.ARRAY_BUFFER (normals p');
    gl_BufferData gl.ARRAY_BUFFER gl.STATIC_DRAW
                  (decompressed lib (normalData p')) ].

(** The touch location after the callbacks [cs], from [l]. *)
Definition lastTouch (cs : list callback) (l : Point) : Point :=
  fold_left (fun l c => match c with
                        | TouchEvent t => Loc t
                        | Draw _ => l
                        end) cs l.

(** The error [flateBytes] exits with on a corrupted piece: that of the
    positions if they do not decompress, else that of the normals. *)
Definition first_error (lib : Lib) (p : piece) : option string :=
  match snd (flate_ReadAll lib (vertexData p)) with
  | Some e => Some e
  | None => snd (flate_ReadAll lib (normalData p))
  end.

(** The IEEE-754 binary32 bit pattern, with the quiet NaN [7fc00000], for
    running [toBytes]. *)
Definition Demo_Float32bits (x : float32) : Z :=
  let sign (s : bool) := if s then 2147483648 else 0 in
  (match x with
   | S754_zero s => sign s
   | S754_infinity s => sign s + 2139095040
   | S754_nan => 2143289344
   | S754_finite s m e =>
       if Zpos (digits2_pos m) =? 24
       then sign s + (e + 150) * 8388608 + (Zpos m - 8388608)
       else sign s + Zpos m
   end) mod 2 ^ 32.

(** A check that the numbers of a list are distinct and not zero. *)
Fixpoint distinct_names (l : list Z) : bool :=
  match l with
  | [] => true
  | x :: rest =>
      negb (x =? 0) && negb (existsb (Z.eqb x) rest) && distinct_names rest
  end.

(** A lookup of the attribute or uniform called [name]. *)
Definition looks_up (name : string) (e : event) : bool :=
  match e with
  | gl_GetAttribLocation _ n _ | gl_GetUniformLocation _ n _ =>
      String.eqb n name
  | _ => false
  end.

(** The vertex attribute arrays that are enabled on the GL side, by
    number: [gl.EnableVertexAttribArray] and [gl.DisableVertexAttribArray]
    switch one. *)
Definition arrays_step (en : Z -> bool) (e : event) : Z -> bool :=
  match e with
  | gl_EnableVertexAttribArray a =>
      fun x => if x =? attribValue a then true else en x
  | gl_DisableVertexAttribArray a =>
      fun x => if x =? attribValue a then false else en x
  | _ => en
  end.

Definition arrays_after (t : trace) (en : Z -> bool) : Z -> bool :=
  fold_left arrays_step t en.

Definition isArraySwitch (e : event) : bool :=
  match e with
  | gl_EnableVertexAttribArray _ | gl_DisableVertexAttribArray _ => true
  | _ => false
  end.

(** Every [gl.DrawArrays] of [t] is made while the arrays [need] are
    enabled, [en] being the arrays enabled at the start. *)
Fixpoint draws_enabled (need : list Z) (en : Z -> bool) (t : trace) : bool :=
  match t with
  | [] => true
  | e :: rest =>
      (if isDrawArrays e then forallb en need else true)
      && draws_enabled need (arrays_step en e) rest
  end.

Definition isEnableDepthTest (e : event) : bool :=
  match e with
  | gl_Enable cap => cap =? gl.DEPTH_TEST
  | _ => false
  end.

(** Every call of [t] that renders comes after a
    [gl.Enable(gl.DEPTH_TEST)]; [on] tells whether one came before [t]. *)
Fixpoint depth_tested (on : bool) (t : trace) : bool :=
  match t with
  | [] => true
  | e :: rest =>
      (if isRender e then on else true)
      && depth_tested (on || isEnableDepthTest e) rest
  end.

(** * Properties *)

(** ** Traces *)

Lemma count_app f (t u : trace) :
  count f (t ++ u) = (count f t + count f u)%nat.
Proof. unfold count. now rewrite filter_app, length_app. Qed.

Lemma drawCalls_app (t u : trace) :
  drawCalls (t ++ u) = drawCalls t ++ drawCalls u.
Proof.
  induction t as [|e t IH]; simpl; [reflexivity|].
  destruct e; simpl; now rewrite ?IH.
Qed.

Lemma matrixWrites_app (t u : trace) :
  matrixWrites (t ++ u) = matrixWrites t ++ matrixWrites u.
Proof.
  induction t as [|e t IH]; simpl; [reflexivity|].
  destruct e; simpl; now rewrite ?IH.
Qed.

Lemma drawCalls_none (t : trace) :
  Forall (fun e => isRender e = false) t -> drawCalls t = [].
Proof.
  induction 1 as [|e t He _ IH]; simpl; [reflexivity|].
  destruct e; simpl; try assumption; discriminate.
Qed.

Lemma matrixWrites_none (t : trace) :
  Forall (fun e => isRender e = false) t -> matrixWrites t = [].
Proof.
  induction 1 as [|e t He _ IH]; simpl; [reflexivity|].
  destruct e; simpl; try assumption; discriminate.
Qed.

Lemma upload_not_render (t : trace) :
  Forall (fun e => isUpload e = true) t ->
  Forall (fun e => isRender e = false) t.
Proof. apply Forall_impl. now intros []. Qed.

Lemma upload_not_CreateProgram (t : trace) :
  Forall (fun e => isUpload e = true) t ->
  Forall (fun e => isCreateProgram e = false) t.
Proof. apply Forall_impl. now intros []. Qed.

Lemma count_none f (t : trace) :
  Forall (fun e => f e = false) t -> count f t = 0%nat.
Proof.
  unfold count. induction 1 as [|e t He _ IH]; simpl; [reflexivity|].
  now rewrite He.
Qed.

(** ** Rules for [appends] *)

Lemma appends_ret {A} (a : A) (t : trace) Q :
  Q (Some a) [] -> appends (ret a) t Q.
Proof. intro H. exists []. now rewrite app_nil_r. Qed.

Lemma appends_bind {A B} (m : M A) (k : A -> M B) (t : trace) Q1 Q :
  appends m t Q1 ->
  (forall a evs, Q1 (Some a) evs ->
     appends (k a) (t ++ evs) (fun r evs' => Q r (evs ++ evs'))) ->
  (forall evs, Q1 None evs -> Q None evs) ->
  appends (bind m k) t Q.
Proof.
  unfold appends, bind. intros Hm Hk Hx.
  destruct (m t) as [a t1|t1].
  - destruct Hm as (evs & -> & Ha). specialize (Hk a evs Ha).
    destruct (k a (t ++ evs)) as [b t2|t2];
      destruct Hk as (evs' & -> & Hq); exists (evs ++ evs');
      now rewrite app_assoc.
  - destruct Hm as (evs & -> & Ha). exists evs. auto.
Qed.

Lemma appends_emit {B} (e : event) (k : unit -> M B) (t : trace) Q :
  appends (k tt) (t ++ [e]) (fun r evs => Q r (e :: evs)) ->
  appends (bind (emit e) k) t Q.
Proof.
  unfold appends, bind, emit. intro H.
  destruct (k tt (t ++ [e])) as [b t2|t2];
    destruct H as (evs & -> & Hq); exists (e :: evs);
    now rewrite <- app_assoc.
Qed.

Lemma appends_ask {A B} (f : trace -> A) (e : A -> event) (k : A -> M B)
  (t : trace) Q :
  appends (k (f t)) (t ++ [e (f t)]) (fun r evs => Q r (e (f t) :: evs)) ->
  appends (bind (ask f e) k) t Q.
Proof.
  unfold appends, bind, ask. cbv zeta. intro H.
  destruct (k (f t) (t ++ [e (f t)])) as [b t2|t2];
    destruct H as (evs & -> & Hq); exists (e (f t) :: evs);
    now rewrite <- app_assoc.
Qed.

Lemma appends_ask_any {A B} (f : trace -> A) (e : A -> event)
  (k : A -> M B) (t : trace) Q :
  (forall a, appends (k a) (t ++ [e a]) (fun r evs => Q r (e a :: evs))) ->
  appends (bind (ask f e) k) t Q.
Proof. intro H. apply appends_ask, H. Qed.

Lemma appends_weaken {A} (m : M A) (t : trace) (Q1 Q : _ -> _ -> Prop) :
  appends m t Q1 -> (forall r evs, Q1 r evs -> Q r evs) -> appends m t Q.
Proof.
  unfold appends. intros H HQ.
  destruct (m t); destruct H as (evs & -> & Hq); exists evs; auto.
Qed.

(** A computation that returns: its result and what it appended. *)
Lemma appends_returned {A} (m : M A) (t : trace) Q (a : A) (t' : trace) :
  appends m t Q -> m t = Returned a t' ->
  exists evs, t' = t ++ evs /\ Q (Some a) evs.
Proof. unfold appends. intros H E. now rewrite E in H. Qed.

Lemma appends_exited {A} (m : M A) (t : trace) Q (t' : trace) :
  appends m t Q -> m t = Exited t' ->
  exists evs, t' = t ++ evs /\ Q None evs.
Proof. unfold appends. intros H E. now rewrite E in H. Qed.

Ltac step_calls :=
  repeat first
    [ apply appends_emit; cbv beta
    | apply appends_ask_any; intro; cbv beta ].

(** ** The loop of [initGL] *)

Ltac run_calls :=
  unfold bind, ask, emit, fatal, ret; simpl;
  rewrite <- ?app_assoc; simpl.

Lemma fatal_upload_not_render (evs : list event) :
  fatal_upload evs -> Forall (fun e => isRender e = false) evs.
Proof.
  intros (evs0 & err & -> & H). apply Forall_app. split.
  - now apply upload_not_render.
  - now repeat constructor.
Qed.

Lemma fatal_upload_count f (evs : list event) :
  f = isGenBuffer \/ f = isCreateProgram ->
  fatal_upload evs ->
  exists evs0, Forall (fun e => isUpload e = true) evs0 /\
               count f evs = count f evs0.
Proof.
  intros Hf (evs0 & err & -> & H). exists evs0. split; [assumption|].
  rewrite count_app. destruct Hf as [-> | ->]; unfold count; simpl; lia.
Qed.

Lemma initGL_piece_spec lib drv (p : piece) (t : trace) :
  appends (initGL_piece lib drv p) t (fun r evs =>
    match r with
    | Some p' =>
        Forall (fun e => isUpload e = true) evs /\
        initialised lib p p' /\
        count isGenBuffer evs = 2%nat
    | None => corrupted lib p /\ exists err, evs = [log_Fatal err]
    end).
Proof.
  unfold appends, initGL_piece, flateBytes, corrupted, initialised,
    decompresses, decompressed.
  destruct (flate_ReadAll lib (vertexData p)) as [v [e|]] eqn:Hv.
  - run_calls. exists [log_Fatal e]. repeat split; eauto.
  - destruct (flate_ReadAll lib (normalData p)) as [n [e|]] eqn:Hn.
    + run_calls. exists [log_Fatal e]. repeat split; eauto.
    + run_calls. eexists. split; [reflexivity|].
      repeat split; simpl; auto 10.
Qed.

Lemma initGL_range_spec lib drv (ps : list piece) (t : trace) :
  appends (range (initGL_piece lib drv) ps) t (fun r evs =>
    (count isGenBuffer evs <= 2 * List.length ps)%nat /\
    match r with
    | Some ps' =>
        Forall (fun e => isUpload e = true) evs /\
        Forall2 (initialised lib) ps ps' /\
        count isGenBuffer evs = (2 * List.length ps)%nat
    | None => Exists (corrupted lib) ps /\ fatal_upload evs
    end).
Proof.
  revert t. induction ps as [|p ps IH]; intro t.
  - unfold appends; simpl. exists []. rewrite app_nil_r.
    repeat split; auto.
  - unfold appends. simpl range. unfold bind at 1.
    pose proof (initGL_piece_spec lib drv p t) as Hp. unfold appends in Hp.
    destruct (initGL_piece lib drv p t) as [p' t1|t1].
    + destruct Hp as (ev1 & -> & Hu1 & Hi & Hn1).
      unfold bind at 1.
      specialize (IH (t ++ ev1)). unfold appends in IH.
      destruct (range (initGL_piece lib drv) ps (t ++ ev1)) as [ps' t2|t2].
      * destruct IH as (ev2 & -> & Hc2 & Hu2 & Hf & Hn2).
        unfold ret. exists (ev1 ++ ev2). rewrite app_assoc.
        split; [reflexivity|]. rewrite count_app.
        repeat split; simpl List.length; try lia.
        -- now apply Forall_app.
        -- now constructor.
      * destruct IH as (ev2 & -> & Hc2 & Hx & ev0 & err & -> & Hu2).
        exists (ev1 ++ ev0 ++ [log_Fatal err]).
        split; [now rewrite !app_assoc|]. rewrite count_app.
        repeat split; simpl List.length; try lia.
        -- now apply Exists_cons_tl.
        -- exists (ev1 ++ ev0), err. rewrite app_assoc.
           split; [reflexivity|]. now apply Forall_app.
    + destruct Hp as (ev1 & -> & Hx & err & ->).
      exists [log_Fatal err]. split; [reflexivity|].
      repeat split.
      * unfold count; simpl; lia.
      * now apply Exists_cons_hd.
      * exists [], err. now split.
Qed.

(** ** [initGL] *)

Lemma initGL_failure lib drv (g : globals) (t : trace) (err : string) :
  snd (created drv t) = Some err ->
  initGL lib drv g t =
  Returned (set_program g (fst (created drv t)))
           (t ++ [ gl_Enable gl.DEPTH_TEST;
                   glutil_CreateProgram vertexShader fragmentShader
                                        (created drv t);
                   log_Printf
                     (String.append "error creating GL program: " err) ]).
Proof.
  intro H. unfold initGL, bind at 1, emit at 1, bind at 1, ask at 1.
  fold (created drv t). cbv zeta. rewrite H. run_calls. reflexivity.
Qed.

Lemma initGL_success lib drv (g : globals) (t : trace) :
  snd (created drv t) = None ->
  appends (initGL lib drv g) t (fun r evs =>
    Forall (fun e => isRender e = false) evs /\
    (count isGenBuffer evs <= 2 * List.length (pieces g))%nat /\
    count isCreateProgram evs = 1%nat /\
    match r with
    | Some g' =>
        program g' = fst (created drv t) /\
        Forall2 (initialised lib) (pieces g) (pieces g') /\
        touchLoc g' = touchLoc g /\
        count isGenBuffer evs = (2 * List.length (pieces g))%nat /\
        Forall (fun e => isLog e = false) evs
    | None =>
        Exists (corrupted lib) (pieces g) /\
        exists evs0 err, evs = evs0 ++ [log_Fatal err]
    end).
Proof.
  intro H. unfold initGL. apply appends_emit. apply appends_ask.
  fold (created drv t). cbv beta zeta. rewrite H.
  generalize (created drv t). intros r.
  eapply appends_bind; [apply initGL_range_spec| |].
  - intros ps ev (Hc & Hu & Hf & Hc2). cbv beta zeta.
    unfold attrib, uniform, initMVP.
    cbn [pieces set_program set_pieces program] in *.
    step_calls. apply appends_ret.
    change (?a :: ?b :: ev ++ ?c) with ([a; b] ++ ev ++ c).
    rewrite !Forall_app, !count_app.
    rewrite (count_none isCreateProgram ev)
      by now apply upload_not_CreateProgram.
    set (n := count isGenBuffer ev) in *. clearbody n.
    unfold count; simpl.
    repeat split; auto using upload_not_render; try lia;
      try (repeat constructor).
    revert Hu. apply Forall_impl. now intros [].
  - intros ev (Hc & Hx & Hfu). cbn [pieces set_program] in *.
    pose proof (fatal_upload_not_render _ Hfu) as Hn.
    destruct (fatal_upload_count isCreateProgram ev (or_intror eq_refl) Hfu)
      as (ev0 & Hu0 & Hc0).
    change (?a :: ?b :: ev) with ([a; b] ++ ev).
    rewrite !Forall_app, !count_app, Hc0.
    rewrite (count_none isCreateProgram ev0)
      by now apply upload_not_CreateProgram.
    set (n := count isGenBuffer ev) in *. clearbody n.
    unfold count; simpl.
    repeat split; auto; try lia; try (repeat constructor).
    destruct Hfu as (ev1 & err & -> & _).
    exists ([gl_Enable gl.DEPTH_TEST;
             glutil_CreateProgram vertexShader fragmentShader r] ++ ev1), err.
    now rewrite <- app_assoc.
Qed.

(** ** [draw] *)

Lemma bind_ext {A B} (m : M A) (k k' : A -> M B) (t : trace) :
  (forall a t', k a t' = k' a t') -> bind m k t = bind m k' t.
Proof. intro H. unfold bind. destruct (m t); auto. Qed.

Lemma draw_piece_events (g : globals) (p : piece) (t : trace) :
  draw_piece g p t = Returned tt (t ++ piece_events g p).
Proof. unfold draw_piece. run_calls. reflexivity. Qed.

Lemma draw_range_events (g : globals) (ps : list piece) (t : trace) :
  range_ (draw_piece g) ps t = Returned tt (t ++ flat_map (piece_events g) ps).
Proof.
  revert t. induction ps as [|p ps IH]; intro t; simpl.
  - unfold ret. now rewrite app_nil_r.
  - unfold bind. rewrite draw_piece_events, IH.
    now rewrite <- app_assoc.
Qed.

(** [draw] is the initialisation, when the program handle is zero,
    followed by the calls of the frame. *)
Lemma draw_frame lib drv (geo : Geom) (g : globals) (t : trace) :
  draw lib drv geo g t =
  bind (if programValue (program g) =? 0
        then
          g' <- initGL lib drv g ;;
          emit (log_Printf "example/basic rendering initialized") ;;
          ret g'
        else ret g)
       (fun g' t' => Returned g' (t' ++ frame_events lib geo g')) t.
Proof.
  unfold draw. apply bind_ext. intros g' t'.
  unfold bind, emit, ret. rewrite draw_range_events.
  unfold frame_events. rewrite <- !app_assoc. reflexivity.
Qed.

Lemma draw_ready lib drv (geo : Geom) (g : globals) (t : trace) :
  programValue (program g) <> 0 ->
  draw lib drv geo g t = Returned g (t ++ frame_events lib geo g).
Proof.
  intro H. rewrite draw_frame. apply Z.eqb_neq in H. rewrite H.
  reflexivity.
Qed.

Lemma draw_init lib drv (geo : Geom) (g : globals) (t : trace) :
  programValue (program g) = 0 ->
  draw lib drv geo g t =
  match initGL lib drv g t with
  | Returned g' t' =>
      Returned g'
        (t' ++ log_Printf "example/basic rendering initialized"
            :: frame_events lib geo g')
  | Exited t' => Exited t'
  end.
Proof.
  intro H. rewrite draw_frame. apply Z.eqb_eq in H. rewrite H.
  unfold bind, emit, ret. destruct (initGL lib drv g t); [|reflexivity].
  now rewrite <- app_assoc.
Qed.

(** ** Vertex counts *)

Lemma Forall2_imp {A B} (P Q : A -> B -> Prop) (l : list A) (l' : list B) :
  (forall a b, P a b -> Q a b) -> Forall2 P l l' -> Forall2 Q l l'.
Proof. intros H. induction 1; constructor; auto. Qed.

Lemma initialised_count lib (p p' : piece) :
  initialised lib p p' ->
  vertexCount p' =
    Z.of_nat (List.length (decompressed lib (vertexData p))) / 12.
Proof.
  intros (_ & _ & _ & _ & _ & ->). unfold coordsPerVertex.
  now rewrite Z.div_div by lia.
Qed.

(** C2. After [initGL] has run its loop, the [vertexCount] of every piece
    is the length in bytes of its decompressed vertex stream divided by 12:
    by 4 bytes per [float32], then by 3 coordinates per vertex. *)
Theorem initGL_vertexCount lib drv (g g' : globals) (t t' : trace) :
  snd (created drv t) = None ->
  initGL lib drv g t = Returned g' t' ->
  Forall2 (fun p p' =>
             decompresses lib (vertexData p) = true /\
             vertexCount p' =
               Z.of_nat (List.length (decompressed lib (vertexData p))) / 4 / 3
             /\
             vertexCount p' =
               Z.of_nat (List.length (decompressed lib (vertexData p))) / 12)
          (pieces g) (pieces g').
Proof.
  intros Hc Hr.
  destruct (appends_returned _ _ _ _ _ (initGL_success lib drv g t Hc) Hr)
    as (evs & _ & _ & _ & _ & _ & Hf & _).
  revert Hf. apply Forall2_imp. intros p p' Hi.
  pose proof (initialised_count lib p p' Hi) as H12.
  destruct Hi as (Hv & _ & _ & _ & _ & H43). auto.
Qed.

Lemma initGL_vertexCount_witness :
  exists g' t',
    initGL Demo.lib Demo.driver (globals_init Demo.ragged) [] =
      Returned g' t' /\
    map vertexCount (pieces g') = [1; 3; 3; 3; 3; 3; 3; 3; 3; 3; 3; 3] /\
    Forall2 (fun p p' =>
               decompresses Demo.lib (vertexData p) = true /\
               vertexCount p' =
                 Z.of_nat (List.length
                             (decompressed Demo.lib (vertexData p))) / 4 / 3
               /\
               vertexCount p' =
                 Z.of_nat (List.length
                             (decompressed Demo.lib (vertexData p))) / 12)
            (pieces (globals_init Demo.ragged)) (pieces g').
Proof.
  destruct (initGL Demo.lib Demo.driver (globals_init Demo.ragged) [])
    as [g' t'|t'] eqn:E; [|vm_compute in E; discriminate E].
  exists g', t'. split; [reflexivity|]. split.
  - vm_compute in E. injection E as <- _. reflexivity.
  - apply (initGL_vertexCount Demo.lib Demo.driver _ g' [] t');
      [reflexivity | exact E].
Defined.

(** C10. [initGL] does not validate the decompressed geometry.  Whenever
    the program is created and the two streams of every piece decompress,
    whatever their lengths, [initGL] returns without logging anything, and
    the [vertexCount] of each piece is the length of its vertex stream
    divided by 12 and rounded down: it is not negative, and the fewer than
    12 bytes left over are not counted. *)
Theorem initGL_no_validation lib drv (g : globals) (t : trace) :
  snd (created drv t) = None ->
  Forall (fun p => decompresses lib (vertexData p) = true /\
                   decompresses lib (normalData p) = true) (pieces g) ->
  exists g' evs,
    initGL lib drv g t = Returned g' (t ++ evs) /\
    Forall (fun e => isLog e = false) evs /\
    Forall2 (fun p p' =>
               let n :=
                 Z.of_nat (List.length (decompressed lib (vertexData p))) in
               vertexCount p' = n / 12 /\
               0 <= vertexCount p' /\
               12 * vertexCount p' <= n < 12 * vertexCount p' + 12)
            (pieces g) (pieces g').
Proof.
  intros Hc Hall. pose proof (initGL_success lib drv g t Hc) as H.
  unfold appends in H. destruct (initGL lib drv g t) as [g' t'|t'].
  - destruct H as (evs & -> & _ & _ & _ & _ & Hf & _ & _ & Hlog).
    exists g', evs. repeat split; auto.
    revert Hf. apply Forall2_imp. intros p p' Hi.
    apply initialised_count in Hi. cbv zeta. rewrite Hi.
    pose proof (Z.div_mod (Z.of_nat (List.length
                  (decompressed lib (vertexData p)))) 12 ltac:(lia)).
    pose proof (Z.mod_pos_bound (Z.of_nat (List.length
                  (decompressed lib (vertexData p)))) 12 ltac:(lia)).
    repeat split; lia.
  - destruct H as (evs & _ & _ & _ & _ & Hx & _). exfalso.
    apply Exists_exists in Hx. destruct Hx as (p & Hin & Hp).
    rewrite Forall_forall in Hall. destruct (Hall p Hin) as (Hv & Hn).
    destruct Hp as [Hp|Hp]; congruence.
Qed.

Lemma initGL_no_validation_witness :
  exists g' evs,
    initGL Demo.lib Demo.driver (globals_init Demo.ragged) [] =
      Returned g' ([] ++ evs) /\
    Forall (fun e => isLog e = false) evs /\
    Forall2 (fun p p' =>
               let n :=
                 Z.of_nat (List.length
                             (decompressed Demo.lib (vertexData p))) in
               vertexCount p' = n / 12 /\
               0 <= vertexCount p' /\
               12 * vertexCount p' <= n < 12 * vertexCount p' + 12)
            (pieces (globals_init Demo.ragged)) (pieces g').
Proof.
  apply (initGL_no_validation Demo.lib Demo.driver
           (globals_init Demo.ragged) []).
  - reflexivity.
  - repeat constructor.
Defined.

(** ** Frames *)

Lemma frame_events_no_setup lib (geo : Geom) (g : globals) :
  Forall (fun e => isSetup e = false) (frame_events lib geo g).
Proof.
  unfold frame_events. rewrite !Forall_app. repeat split.
  - repeat constructor.
  - induction (pieces g) as [|p ps IH]; simpl; [constructor|].
    repeat (constructor; [reflexivity|]). exact IH.
  - repeat constructor.
Qed.

Lemma no_setup_count f (evs : list event) :
  f = isGenBuffer \/ f = isCreateProgram \/ f = isLookup ->
  Forall (fun e => isSetup e = false) evs -> count f evs = 0%nat.
Proof.
  intros Hf H. apply count_none. revert H. apply Forall_impl.
  destruct Hf as [-> | [-> | ->]]; now intros [].
Qed.

Lemma frame_drawCalls lib (geo : Geom) (g : globals) :
  drawCalls (frame_events lib geo g) =
  map (fun p => (gl.TRIANGLES, 0, vertexCount p)) (pieces g).
Proof.
  unfold frame_events. rewrite !drawCalls_app. simpl.
  rewrite app_nil_r. induction (pieces g) as [|p ps IH]; simpl; congruence.
Qed.

Lemma frame_matrixWrites lib (geo : Geom) (g : globals) :
  matrixWrites (frame_events lib geo g) =
  [ (projection g,
     Perspective lib Mat4_zero F32.pi_4 (F32.div (Width geo) (Height geo))
                 (F32.lit 1 10) (F32.lit 200 1));
    (view g, LookAt lib Mat4_zero (eye lib geo g) center up);
    (model g,
     Scale lib (Identity lib Mat4_zero) (Identity lib Mat4_zero)
           (scale geo g) (scale geo g) (scale geo g)) ].
Proof.
  unfold frame_events. rewrite !matrixWrites_app.
  replace (matrixWrites (flat_map (piece_events g) (pieces g))) with
    (@nil (Uniform * Mat4)).
  - reflexivity.
  - induction (pieces g) as [|p ps IH]; simpl; congruence.
Qed.

(** Whatever [draw] does first, it ends with the calls of the frame, for
    the state it returns; the touch location is left alone. *)
Lemma draw_returned lib drv (geo : Geom) (g g' : globals) (t t' : trace) :
  draw lib drv geo g t = Returned g' t' ->
  exists evs0,
    t' = t ++ evs0 ++ frame_events lib geo g' /\
    Forall (fun e => isRender e = false) evs0 /\
    touchLoc g' = touchLoc g /\
    (programValue (program g) <> 0 -> g' = g /\ evs0 = []).
Proof.
  intro H. destruct (Z.eq_dec (programValue (program g)) 0) as [Hz|Hnz].
  - rewrite draw_init in H by assumption.
    destruct (snd (created drv t)) as [err|] eqn:Hc.
    + rewrite (initGL_failure _ _ _ _ _ Hc) in H. injection H as <- <-.
      exists [ gl_Enable gl.DEPTH_TEST;
               glutil_CreateProgram vertexShader fragmentShader
                                    (created drv t);
               log_Printf (String.append "error creating GL program: " err);
               log_Printf "example/basic rendering initialized" ].
      rewrite <- !app_assoc. split; [reflexivity|].
      repeat split; try contradiction. repeat constructor.
    + pose proof (initGL_success lib drv g t Hc) as Hi. unfold appends in Hi.
      destruct (initGL lib drv g t) as [g1 t1|t1]; [|discriminate H].
      injection H as <- <-.
      destruct Hi as (evs & -> & Hn & _ & _ & _ & _ & Ht & _).
      exists (evs ++ [log_Printf "example/basic rendering initialized"]).
      rewrite <- !app_assoc. split; [reflexivity|].
      repeat split; try contradiction; auto.
      apply Forall_app. split; [assumption|]. repeat constructor.
  - rewrite draw_ready in H by assumption. injection H as <- <-.
    exists []. repeat split; auto.
Qed.

(** ** When program creation fails *)

Lemma set_program_zero (g : globals) :
  programValue (program g) = 0 -> set_program g (mkProgram 0) = g.
Proof. destruct g as [ps [v]]; simpl. now intros ->. Qed.

Lemma draw_failure lib drv (geo : Geom) (g : globals) (t : trace) err :
  programValue (program g) = 0 ->
  created drv t = (mkProgram 0, Some err) ->
  draw lib drv geo g t =
  Returned g (t ++ failed_attempt err
                ++ log_Printf "example/basic rendering initialized"
                :: frame_events lib geo g).
Proof.
  intros Hz Hc. rewrite draw_init by assumption.
  rewrite (initGL_failure lib drv g t err) by now rewrite Hc.
  rewrite Hc. cbn [fst]. rewrite set_program_zero by assumption.
  unfold failed_attempt. now rewrite <- app_assoc.
Qed.

(** C6. When program creation fails, [initGL] logs the error and returns
    with the state as it was: the program handle is still zero, no buffer
    has been generated and no attribute or uniform location looked up.
    Every later [draw] tests the handle, finds it zero and runs [initGL]
    again: as long as creation fails, there are as many attempts as
    frames. *)
Theorem initGL_failure_retried lib drv (g : globals) (geos : list Geom)
  (t : trace) :
  programValue (program g) = 0 ->
  (forall t, exists err, created drv t = (mkProgram 0, Some err)) ->
  (exists err,
     initGL lib drv g t = Returned g (t ++ failed_attempt err)) /\
  exists evs,
    run lib drv (map Draw geos) g t = Returned g (t ++ evs) /\
    count isCreateProgram evs = List.length geos /\
    count isGenBuffer evs = 0%nat /\
    count isLookup evs = 0%nat.
Proof.
  intros Hz Hfail. split.
  - destruct (Hfail t) as (err & Hc). exists err.
    rewrite (initGL_failure lib drv g t err) by now rewrite Hc.
    rewrite Hc. cbn [fst]. now rewrite set_program_zero.
  - revert t. induction geos as [|geo geos IH]; intro t.
    + exists []. simpl. unfold ret. now rewrite app_nil_r.
    + destruct (Hfail t) as (err & Hc). simpl. unfold bind.
      rewrite (draw_failure lib drv geo g t err Hz Hc).
      destruct (IH (t ++ failed_attempt err
                      ++ log_Printf "example/basic rendering initialized"
                      :: frame_events lib geo g))
        as (evs & -> & H1 & H2 & H3).
      eexists. rewrite <- app_assoc. split; [reflexivity|].
      pose proof (frame_events_no_setup lib geo g) as Hf.
      change (log_Printf ?m :: ?l) with ([log_Printf m] ++ l).
      rewrite !count_app, H1, H2, H3.
      rewrite !(no_setup_count _ (frame_events lib geo g)) by auto.
      unfold count; simpl. auto.
Qed.

Lemma initGL_failure_retried_witness :
  (exists err,
     initGL Demo.lib Demo.failing (globals_init Demo.assets) [] =
       Returned (globals_init Demo.assets) ([] ++ failed_attempt err)) /\
  exists evs,
    run Demo.lib Demo.failing
        (map Draw [Demo.screen; Demo.screen; Demo.screen])
        (globals_init Demo.assets) [] =
      Returned (globals_init Demo.assets) ([] ++ evs) /\
    count isCreateProgram evs = 3%nat /\
    count isGenBuffer evs = 0%nat /\
    count isLookup evs = 0%nat.
Proof.
  apply (initGL_failure_retried Demo.lib Demo.failing
           (globals_init Demo.assets) [Demo.screen; Demo.screen; Demo.screen]
           []).
  - reflexivity.
  - intro t. eexists. reflexivity.
Defined.

(** ** Once the program handle is set *)

Lemma touch_returned (tch : Touch) (g : globals) (t : trace) :
  touch tch g t =
  Returned (set_touchLoc g (Loc tch)) (t ++ [log_PrintTouch tch]).
Proof. reflexivity. Qed.

Lemma appends_after {A B} (m : M A) (k : A -> M B) (t : trace) Q a evs :
  m t = Returned a (t ++ evs) ->
  appends (k a) (t ++ evs) (fun r evs' => Q r (evs ++ evs')) ->
  appends (bind m k) t Q.
Proof.
  intros Hm Hk. eapply appends_bind with
    (Q1 := fun r e => r = Some a /\ e = evs).
  - unfold appends. rewrite Hm. now exists evs.
  - now intros a' e ([= <-] & ->).
  - now intros e (? & _).
Qed.

Lemma run_ready lib drv (cs : list callback) (g : globals) (t : trace) :
  programValue (program g) <> 0 ->
  appends (run lib drv cs g) t (fun r evs =>
    Forall (fun e => isSetup e = false) evs /\
    match r with
    | Some g' => program g' = program g /\ pieces g' = pieces g
    | None => False
    end).
Proof.
  intro Hnz. revert g t Hnz. induction cs as [|c cs IH]; intros g t Hnz.
  - apply appends_ret. auto.
  - simpl run. eapply appends_bind with
      (Q1 := fun r evs =>
               Forall (fun e => isSetup e = false) evs /\
               match r with
               | Some g' => program g' = program g /\ pieces g' = pieces g
               | None => False
               end).
    + destruct c as [geo|tch]; unfold appends; simpl.
      * rewrite draw_ready by assumption.
        eexists. split; [reflexivity|].
        split; [apply frame_events_no_setup|auto].
      * unfold touch. run_calls. eexists. split; [reflexivity|].
        split; [repeat constructor|auto].
    + intros g' evs (Hs & Hp & Hps).
      eapply appends_weaken; [apply IH; now rewrite Hp|].
      intros [g''|] evs' (Hs' & H'); [|contradiction].
      destruct H' as (Hp' & Hps'). rewrite Forall_app.
      repeat split; auto; congruence.
    + intros evs (_ & []).
Qed.

(** One frame started with the zero handle: it generates at most two
    buffers per piece, and none if the handle is zero afterwards. *)
Lemma draw_allocates lib drv (geo : Geom) (g : globals) (t : trace) :
  (forall t, snd (created drv t) = None ->
             programValue (fst (created drv t)) <> 0) ->
  programValue (program g) = 0 ->
  appends (draw lib drv geo g) t (fun r evs =>
    (count isGenBuffer evs <= 2 * List.length (pieces g))%nat /\
    match r with
    | Some g' =>
        List.length (pieces g') = List.length (pieces g) /\
        (programValue (program g') = 0 -> count isGenBuffer evs = 0%nat)
    | None => True
    end).
Proof.
  intros Hok Hz. unfold appends. rewrite draw_init by assumption.
  pose proof (frame_events_no_setup lib geo) as Hf.
  destruct (snd (created drv t)) as [err|] eqn:Hc.
  - rewrite (initGL_failure _ _ _ _ _ Hc).
    exists ([ gl_Enable gl.DEPTH_TEST;
              glutil_CreateProgram vertexShader fragmentShader
                                   (created drv t);
              log_Printf (String.append "error creating GL program: " err);
              log_Printf "example/basic rendering initialized" ]
            ++ frame_events lib geo (set_program g (fst (created drv t)))).
    split; [now rewrite <- app_assoc|].
    rewrite count_app, (no_setup_count isGenBuffer (frame_events _ _ _))
      by auto.
    unfold count; simpl. repeat split; auto; lia.
  - pose proof (initGL_success lib drv g t Hc) as Hi. unfold appends in Hi.
    destruct (initGL lib drv g t) as [g1 t1|t1].
    + destruct Hi as (evs & -> & _ & Hle & _ & Hp & Hf2 & _ & _ & _).
      exists (evs ++ log_Printf "example/basic rendering initialized"
                  :: frame_events lib geo g1).
      rewrite <- app_assoc. split; [reflexivity|].
      change (log_Printf ?m :: ?l) with ([log_Printf m] ++ l).
      rewrite !count_app, (no_setup_count isGenBuffer (frame_events _ _ _))
        by auto.
      unfold count at 2; simpl. repeat split; try lia.
      * symmetry. eapply Forall2_length; eassumption.
      * intro Hz1. exfalso. apply (Hok t Hc). now rewrite <- Hp.
    + destruct Hi as (evs & -> & _ & Hle & _). exists evs. auto.
Qed.

(** C7. However many times [draw] is invoked, and whatever touches come
    in between, at most two buffers (positions and normals) are ever
    generated per piece; and once the program handle is not zero, no later
    callback makes any call of [initGL] again.  [glutil.CreateProgram]
    is taken to return a non-zero program when it reports no error. *)
Theorem buffers_allocated_once lib drv (cs : list callback) (g : globals)
  (t : trace) :
  (forall t, snd (created drv t) = None ->
             programValue (fst (created drv t)) <> 0) ->
  appends (run lib drv cs g) t (fun _ evs =>
    (count isGenBuffer evs <= 2 * List.length (pieces g))%nat /\
    (programValue (program g) <> 0 ->
     Forall (fun e => isSetup e = false) evs)).
Proof.
  intro Hok.
  assert (Hready : forall cs g t,
             programValue (program g) <> 0 ->
             appends (run lib drv cs g) t (fun _ evs =>
               Forall (fun e => isSetup e = false) evs /\
               count isGenBuffer evs = 0%nat)).
  { clear cs g t. intros cs g t Hnz.
    eapply appends_weaken; [apply run_ready; assumption|].
    intros r evs (Hs & _). split; [assumption|].
    apply no_setup_count; auto. }
  revert g t. induction cs as [|c cs IH]; intros g t.
  - apply appends_ret. unfold count; simpl. split; [lia|constructor].
  - destruct (Z.eq_dec (programValue (program g)) 0) as [Hz|Hnz].
    + destruct c as [geo|tch]; simpl run.
      * eapply appends_bind; [apply draw_allocates; assumption| |].
        -- intros g' evs (Hle & Hlen & Hzero). cbv beta.
           destruct (Z.eq_dec (programValue (program g')) 0) as [Hz'|Hnz'].
           ++ eapply appends_weaken; [apply IH|].
              intros r evs' (Hle' & _). rewrite count_app, Hzero by assumption.
              split; [lia|contradiction].
           ++ eapply appends_weaken; [apply Hready; assumption|].
              intros r evs' (_ & H0). rewrite count_app, H0.
              split; [lia|contradiction].
        -- intros evs (Hle & _). split; [assumption|contradiction].
      * eapply appends_after; [apply touch_returned|].
        eapply appends_weaken; [apply IH|].
        intros r evs' (Hle' & _). cbn [pieces set_touchLoc] in Hle'.
        rewrite count_app. unfold count at 1; simpl.
        split; [lia|contradiction].
    + eapply appends_weaken; [apply Hready; assumption|].
      intros r evs (Hs & H0). rewrite H0. split; [lia|auto].
Qed.

Lemma buffers_allocated_once_witness :
  appends (run Demo.lib Demo.flaky
               [Draw Demo.screen; Draw Demo.screen;
                TouchEvent (mkTouch 0 0 (mkPoint (F32.lit 240 1) F32.zero));
                Draw Demo.screen; Draw Demo.screen; Draw Demo.screen]
               (globals_init Demo.assets))
          []
          (fun _ evs =>
             (count isGenBuffer evs
              <= 2 * List.length (pieces (globals_init Demo.assets)))%nat /\
             (programValue (program (globals_init Demo.assets)) <> 0 ->
              Forall (fun e => isSetup e = false) evs)).
Proof.
  apply (buffers_allocated_once Demo.lib Demo.flaky).
  intros t. unfold created. simpl.
  destruct (count isCreateProgram (t ++ [gl_Enable gl.DEPTH_TEST]) <? 2)%nat;
    simpl; [discriminate|intros _; discriminate].
Defined.


(** ** Frames without a program *)

Lemma frame_clears lib (geo : Geom) (g : globals) :
  count isClear (frame_events lib geo g) = 2%nat.
Proof.
  unfold frame_events. rewrite !count_app.
  replace (count isClear (flat_map (piece_events g) (pieces g))) with 0%nat.
  - reflexivity.
  - unfold count. induction (pieces g) as [|p ps IH]; simpl; congruence.
Qed.

Lemma draw_not_skipped_counterexample :
  exists g' t',
    draw Demo.lib Demo.failing Demo.screen (globals_init Demo.assets) [] =
      Returned g' t' /\
    programValue (program g') = 0 /\
    count isClear t' = 2%nat /\
    count isUniformWrite t' = 30%nat /\
    count isDrawArrays t' = 12%nat.
Proof.
  destruct (draw Demo.lib Demo.failing Demo.screen
                 (globals_init Demo.assets) []) as [g' t'|t'] eqn:E;
    vm_compute in E; [|discriminate E].
  injection E as <- <-. do 2 eexists. split; [reflexivity|].
  vm_compute. auto.
Qed.

(** C4, amended.  A frame that ends with the program handle still zero is
    not skipped.  After the failed attempt of [initGL], which renders
    nothing, [draw] makes all the calls of a frame: it clears, binds the
    zero program, writes the three matrices and issues one draw call per
    piece, with the vertex count the piece has. *)
Theorem draw_not_skipped lib drv (geo : Geom) (g g' : globals)
  (t t' : trace) :
  draw lib drv geo g t = Returned g' t' ->
  programValue (program g') = 0 ->
  exists evs0,
    t' = t ++ evs0 ++ frame_events lib geo g' /\
    Forall (fun e => isRender e = false) evs0 /\
    In (gl_UseProgram (mkProgram 0)) (frame_events lib geo g') /\
    count isClear (frame_events lib geo g') = 2%nat /\
    List.length (matrixWrites (frame_events lib geo g')) = 3%nat /\
    drawCalls (frame_events lib geo g') =
      map (fun p => (gl.TRIANGLES, 0, vertexCount p)) (pieces g').
Proof.
  intros Hd Hz. destruct (draw_returned _ _ _ _ _ _ _ Hd)
    as (evs0 & -> & Hn & _ & _).
  exists evs0. repeat split; auto.
  - unfold frame_events. destruct (program g') as [v]. simpl in Hz.
    subst v. simpl. auto.
  - apply frame_clears.
  - now rewrite frame_matrixWrites.
  - apply frame_drawCalls.
Qed.

Lemma draw_not_skipped_witness :
  exists g' t' evs0,
    draw Demo.lib Demo.failing Demo.screen (globals_init Demo.assets) [] =
      Returned g' t' /\
    t' = [] ++ evs0 ++ frame_events Demo.lib Demo.screen g' /\
    Forall (fun e => isRender e = false) evs0 /\
    In (gl_UseProgram (mkProgram 0)) (frame_events Demo.lib Demo.screen g') /\
    count isClear (frame_events Demo.lib Demo.screen g') = 2%nat /\
    List.length (matrixWrites (frame_events Demo.lib Demo.screen g'))
      = 3%nat /\
    drawCalls (frame_events Demo.lib Demo.screen g') =
      map (fun p => (gl.TRIANGLES, 0, vertexCount p)) (pieces g').
Proof.
  destruct (draw Demo.lib Demo.failing Demo.screen
                 (globals_init Demo.assets) []) as [g' t'|t'] eqn:E;
    [|vm_compute in E; discriminate E].
  assert (Hz : programValue (program g') = 0).
  { vm_compute in E. injection E as <- _. reflexivity. }
  destruct (draw_not_skipped Demo.lib Demo.failing Demo.screen
              (globals_init Demo.assets) g' [] t' E Hz) as (evs0 & H).
  exists g', t', evs0. split; [reflexivity|exact H].
Defined.

(** ** Corrupt geometry *)

Lemma initialised_all lib (ps ps' : list piece) :
  Forall2 (initialised lib) ps ps' ->
  Forall (fun p => decompresses lib (vertexData p) = true) ps.
Proof. induction 1 as [|p p' ps ps' (Hv & _) _ IH]; constructor; auto. Qed.

Lemma corrupt_not_fatal_counterexample :
  Exists (fun p => decompresses Demo.lib (vertexData p) = false)
         (pieces (globals_init Demo.corrupt)) /\
  exists g' t',
    draw Demo.lib Demo.failing Demo.screen (globals_init Demo.corrupt) [] =
      Returned g' t' /\
    count isDrawArrays t' = 12%nat /\
    Forall (fun e => match e with log_Fatal _ => False | _ => True end) t'.
Proof.
  split.
  - do 3 apply Exists_cons_tl. apply Exists_cons_hd. reflexivity.
  - destruct (draw Demo.lib Demo.failing Demo.screen
                   (globals_init Demo.corrupt) []) as [g' t'|t'] eqn:E;
      vm_compute in E; [|discriminate E].
    injection E as <- <-. do 2 eexists. split; [reflexivity|].
    split; [reflexivity|]. repeat constructor.
Qed.

(** C5, amended.  When the program has been created and the compressed
    vertex bytes of some piece do not decompress, [initGL] ends the process
    with [log.Fatal]; the frame that ran it, [draw] included, has issued no
    draw call, and no later callback runs. *)
Theorem corrupt_vertices_fatal lib drv (geo : Geom) (cs : list callback)
  (g : globals) (t : trace) :
  programValue (program g) = 0 ->
  snd (created drv t) = None ->
  Exists (fun p => decompresses lib (vertexData p) = false) (pieces g) ->
  exists evs err,
    initGL lib drv g t = Exited (t ++ evs ++ [log_Fatal err]) /\
    draw lib drv geo g t = Exited (t ++ evs ++ [log_Fatal err]) /\
    run lib drv (Draw geo :: cs) g t = Exited (t ++ evs ++ [log_Fatal err]) /\
    drawCalls (evs ++ [log_Fatal err]) = [].
Proof.
  intros Hz Hc Hx. pose proof (initGL_success lib drv g t Hc) as Hi.
  unfold appends in Hi.
  assert (Hd := draw_init lib drv geo g t Hz).
  destruct (initGL lib drv g t) as [g1 t1|t1].
  - exfalso. destruct Hi as (evs & _ & _ & _ & _ & _ & Hf & _).
    apply initialised_all in Hf. rewrite Forall_forall in Hf.
    apply Exists_exists in Hx. destruct Hx as (p & Hin & Hp).
    specialize (Hf p Hin). congruence.
  - destruct Hi as (evs & -> & Hn & _ & _ & _ & evs0 & err & ->).
    exists evs0, err. repeat split; auto.
    + simpl. unfold bind. now rewrite Hd.
    + now apply drawCalls_none.
Qed.

Lemma corrupt_vertices_fatal_witness :
  exists evs err,
    initGL Demo.lib Demo.driver (globals_init Demo.corrupt) [] =
      Exited ([] ++ evs ++ [log_Fatal err]) /\
    draw Demo.lib Demo.driver Demo.screen (globals_init Demo.corrupt) [] =
      Exited ([] ++ evs ++ [log_Fatal err]) /\
    run Demo.lib Demo.driver [Draw Demo.screen; Draw Demo.screen]
        (globals_init Demo.corrupt) [] =
      Exited ([] ++ evs ++ [log_Fatal err]) /\
    drawCalls (evs ++ [log_Fatal err]) = [].
Proof.
  apply (corrupt_vertices_fatal Demo.lib Demo.driver Demo.screen
           [Draw Demo.screen] (globals_init Demo.corrupt) []).
  - reflexivity.
  - reflexivity.
  - do 3 apply Exists_cons_tl. apply Exists_cons_hd. reflexivity.
Defined.

(** ** The pieces of a running process *)

Lemma initialised_same lib (ps0 ps ps' : list piece) :
  Forall2 same_asset ps0 ps ->
  Forall2 (initialised lib) ps ps' ->
  Forall2 same_asset ps0 ps' /\ Forall2 (initialised lib) ps0 ps'.
Proof.
  intro H. revert ps'. induction H as [|p0 p ps0 ps (Hv & Hn & Hc) _ IH];
    intros ps' H'; inversion H' as [|? p' ? ps1 Hi Hrest]; subst.
  - split; constructor.
  - destruct (IH _ Hrest) as (IH1 & IH2).
    destruct Hi as (H1 & H2 & H3 & H4 & H5 & H6).
    rewrite Hv, Hn, Hc in *.
    split; constructor; auto; repeat split; assumption.
Qed.

Lemma same_asset_refl (ps : list piece) : Forall2 same_asset ps ps.
Proof. induction ps; constructor; auto. now repeat split. Qed.

(** In every state the process reaches, the pieces carry the embedded data
    and colours they were declared with; and if the program handle is not
    zero, the loop of [initGL] has run on them.  [glutil.CreateProgram] is
    taken to return the zero program when it reports an error. *)
Lemma reachable_pieces lib drv (a : Assets) (g : globals) (t : trace) :
  (forall t err, snd (created drv t) = Some err ->
                 programValue (fst (created drv t)) = 0) ->
  reachable lib drv a g t ->
  Forall2 same_asset (pieces_lit a) (pieces g) /\
  (programValue (program g) <> 0 ->
   Forall2 (initialised lib) (pieces_lit a) (pieces g)).
Proof.
  intros Hfail. induction 1 as [|g t c g' t' _ (IH1 & IH2) Hrun].
  - split; [apply same_asset_refl|]. simpl. intros []. reflexivity.
  - destruct c as [geo|tch]; simpl in Hrun.
    + destruct (Z.eq_dec (programValue (program g)) 0) as [Hz|Hnz].
      * rewrite draw_init in Hrun by assumption.
        destruct (snd (created drv t)) as [err|] eqn:Hc.
        -- rewrite (initGL_failure _ _ _ _ _ Hc) in Hrun.
           injection Hrun as <- <-. simpl. split; [assumption|].
           intro Hnz. exfalso. apply Hnz. eauto.
        -- pose proof (initGL_success lib drv g t Hc) as Hi.
           unfold appends in Hi.
           destruct (initGL lib drv g t) as [g1 t1|t1]; [|discriminate Hrun].
           injection Hrun as <- <-.
           destruct Hi as (evs & _ & _ & _ & _ & _ & Hf & _).
           destruct (initialised_same lib _ _ _ IH1 Hf). auto.
      * rewrite draw_ready in Hrun by assumption.
        injection Hrun as <- <-. auto.
    + rewrite touch_returned in Hrun. injection Hrun as <- <-. auto.
Qed.

Lemma first_piece_counterexample :
  nth_error (map color (pieces_lit Demo.assets)) 0 <>
  Some (mkVec4 (F32.lit 761 1000) (F32.lit 442 1000) (F32.lit 180 1000)
               (F32.lit 1 1)).
Proof. vm_compute. discriminate. Qed.

(** C3, amended.  There are 12 pieces; piece 0, the body, has the colour
    (0, 0.537, 0.8, 1) of the fur, and (0.761, 0.442, 0.180, 1) is the
    colour of piece 1.  In every frame that ends with the program handle
    set, [draw] issues exactly 12 draw calls of triangles, one per piece in
    the order of declaration, each for the vertex count of its piece,
    which is positive. *)
Theorem frame_draws_every_piece lib drv (a : Assets) (geo : Geom)
  (g g' : globals) (t t' : trace) :
  (forall t err, snd (created drv t) = Some err ->
                 programValue (fst (created drv t)) = 0) ->
  Forall (asset_format lib) (pieces_lit a) ->
  reachable lib drv a g t ->
  draw lib drv geo g t = Returned g' t' ->
  programValue (program g') <> 0 ->
  List.length (pieces_lit a) = 12%nat /\
  nth_error (map color (pieces_lit a)) 0 =
    Some (mkVec4 F32.zero (F32.lit 537 1000) (F32.lit 8 10) (F32.lit 1 1)) /\
  nth_error (map color (pieces_lit a)) 1 =
    Some (mkVec4 (F32.lit 761 1000) (F32.lit 442 1000) (F32.lit 180 1000)
                 (F32.lit 1 1)) /\
  exists evs,
    t' = t ++ evs /\
    drawCalls evs =
      map (fun p =>
             (gl.TRIANGLES, 0,
              Z.of_nat (List.length (decompressed lib (vertexData p))) / 12))
          (pieces_lit a) /\
    List.length (drawCalls evs) = 12%nat /\
    Forall (fun c => 0 < snd c) (drawCalls evs).
Proof.
  intros Hfail Hfmt Hreach Hd Hnz.
  split; [reflexivity|]. split; [vm_compute; reflexivity|].
  split; [vm_compute; reflexivity|].
  assert (Hreach' : reachable lib drv a g' t')
    by (eapply reachable_step with (c := Draw geo); eassumption).
  destruct (reachable_pieces lib drv a g' t' Hfail Hreach') as (_ & Hi).
  specialize (Hi Hnz).
  destruct (draw_returned _ _ _ _ _ _ _ Hd) as (evs0 & -> & Hn & _ & _).
  exists (evs0 ++ frame_events lib geo g'). split; [reflexivity|].
  rewrite drawCalls_app, (drawCalls_none evs0 Hn), frame_drawCalls.
  cbn [app].
  assert (Hmap : map (fun p => (gl.TRIANGLES, 0, vertexCount p)) (pieces g')
                 = map (fun p =>
                          (gl.TRIANGLES, 0,
                           Z.of_nat (List.length
                                       (decompressed lib (vertexData p)))
                           / 12))
                       (pieces_lit a)).
  { clear - Hi. induction Hi as [|p p' ps ps' Hp _ IH]; simpl;
      [reflexivity|].
    now rewrite IH, (initialised_count lib p p' Hp). }
  rewrite Hmap. split; [reflexivity|]. split; [now rewrite length_map|].
  rewrite Forall_map. revert Hfmt. apply Forall_impl.
  intros p (_ & _ & Hpos & Hmod & _). cbn [snd].
  apply Nat.Div0.div_exact in Hmod.
  apply Z.div_str_pos. lia.
Qed.

Lemma frame_draws_every_piece_witness :
  exists g t g' t' evs,
    reachable Demo.lib Demo.flaky Demo.assets g t /\
    draw Demo.lib Demo.flaky Demo.screen g t = Returned g' t' /\
    t' = t ++ evs /\
    drawCalls evs =
      map (fun p =>
             (gl.TRIANGLES, 0,
              Z.of_nat (List.length
                          (decompressed Demo.lib (vertexData p))) / 12))
          (pieces_lit Demo.assets) /\
    List.length (drawCalls evs) = 12%nat /\
    Forall (fun c => 0 < snd c) (drawCalls evs).
Proof.
  destruct (run Demo.lib Demo.flaky [Draw Demo.screen; Draw Demo.screen]
                (globals_init Demo.assets) []) as [g t|t] eqn:Er;
    [|vm_compute in Er; discriminate Er].
  assert (Hreach : reachable Demo.lib Demo.flaky Demo.assets g t).
  { simpl in Er. unfold bind in Er.
    destruct (draw Demo.lib Demo.flaky Demo.screen
                   (globals_init Demo.assets) []) as [g1 t1|t1] eqn:E1;
      [|discriminate Er].
    destruct (draw Demo.lib Demo.flaky Demo.screen g1 t1)
      as [g2 t2|t2] eqn:E2; [|discriminate Er].
    injection Er as <- <-.
    eapply reachable_step with (c := Draw Demo.screen); [|exact E2].
    eapply reachable_step with (c := Draw Demo.screen); [|exact E1].
    apply reachable_start. }
  destruct (draw Demo.lib Demo.flaky Demo.screen g t) as [g' t'|t'] eqn:Ed;
    [|vm_compute in Er; injection Er as <- <-; vm_compute in Ed;
      discriminate Ed].
  assert (Hnz : programValue (program g') <> 0).
  { vm_compute in Er. injection Er as <- <-. vm_compute in Ed.
    injection Ed as <- _. discriminate. }
  destruct (frame_draws_every_piece Demo.lib Demo.flaky Demo.assets
              Demo.screen g g' t t') as (_ & _ & _ & evs & H);
    try assumption.
  - intros t0 err. unfold created. simpl.
    destruct (count isCreateProgram (t0 ++ [gl_Enable gl.DEPTH_TEST]) <? 2)%nat;
      [reflexivity|discriminate].
  - repeat constructor.
  - exists g, t, g', t', evs. auto.
Defined.

(** ** The transforms of a frame *)

Lemma eye_touchLoc lib (geo : Geom) (g g' : globals) :
  touchLoc g' = touchLoc g -> eye lib geo g' = eye lib geo g.
Proof. intro H. unfold eye, cameraY, cameraZ, frac. now rewrite H. Qed.

Lemma scale_touchLoc (geo : Geom) (g g' : globals) :
  touchLoc g' = touchLoc g -> scale geo g' = scale geo g.
Proof. intro H. unfold scale. now rewrite H. Qed.

(** The matrices a frame writes: projection, view and model, whatever
    [initGL] did before. *)
Lemma draw_matrixWrites lib drv (geo : Geom) (g g' : globals)
  (t t' : trace) :
  draw lib drv geo g t = Returned g' t' ->
  exists evs,
    t' = t ++ evs /\
    matrixWrites evs =
    [ (projection g',
       Perspective lib Mat4_zero F32.pi_4 (F32.div (Width geo) (Height geo))
                   (F32.lit 1 10) (F32.lit 200 1));
      (view g', LookAt lib Mat4_zero (eye lib geo g) center up);
      (model g',
       Scale lib (Identity lib Mat4_zero) (Identity lib Mat4_zero)
             (scale geo g) (scale geo g) (scale geo g)) ].
Proof.
  intro Hd. destruct (draw_returned _ _ _ _ _ _ _ Hd)
    as (evs0 & -> & Hn & Ht & _).
  exists (evs0 ++ frame_events lib geo g'). split; [reflexivity|].
  rewrite matrixWrites_app, (matrixWrites_none evs0 Hn), frame_matrixWrites.
  now rewrite (eye_touchLoc lib geo g g' Ht), (scale_touchLoc geo g g' Ht).
Qed.

Lemma camera_counterexample :
  eye Demo.lib Demo.screen (globals_init Demo.assets) =
    mkVec3 F32.zero F32.zero (F32.neg F32.five) /\
  mkVec3 F32.zero
         (F32.mul F32.five
            (Sin Demo.lib
               (F32.mul (F32.mul F32.two F32.pi)
                  (F32.div (X (touchLoc (globals_init Demo.assets)))
                           (Width Demo.screen)))))
         (F32.mul F32.five
            (Cos Demo.lib
               (F32.mul (F32.mul F32.two F32.pi)
                  (F32.div (X (touchLoc (globals_init Demo.assets)))
                           (Width Demo.screen))))) =
    mkVec3 F32.zero F32.zero F32.five /\
  exists g' t',
    draw Demo.lib Demo.driver Demo.screen (globals_init Demo.assets) [] =
      Returned g' t' /\
    nth_error (matrixWrites t') 1 =
      Some (view g',
            LookAt Demo.lib Mat4_zero
                   (mkVec3 F32.zero F32.zero (F32.neg F32.five)) center up) /\
    nth_error (matrixWrites t') 1 <>
      Some (view g',
            LookAt Demo.lib Mat4_zero
                   (mkVec3 F32.zero F32.zero F32.five) center up).
Proof.
  split; [vm_compute; reflexivity|]. split; [vm_compute; reflexivity|].
  destruct (draw Demo.lib Demo.driver Demo.screen
                 (globals_init Demo.assets) []) as [g' t'|t'] eqn:E;
    vm_compute in E; [|discriminate E].
  injection E as <- <-. do 2 eexists. split; [reflexivity|].
  split; [vm_compute; reflexivity|]. vm_compute. discriminate.
Qed.

(** C1, amended.  In every frame the view matrix is the look-at matrix of
    the eye (0, 5 sin(2 pi f), -(5 cos(2 pi f))), where f is the touch x
    coordinate divided by the width of the surface: the z coordinate of
    the eye is the opposite of 5 cos(2 pi f).  The camera looks at the
    origin, with (-1, 0, 0) as its up vector. *)
Theorem view_eye lib drv (geo : Geom) (g g' : globals) (t t' : trace) :
  draw lib drv geo g t = Returned g' t' ->
  exists evs,
    t' = t ++ evs /\
    nth_error (matrixWrites evs) 1 =
      Some (view g',
            LookAt lib Mat4_zero
              (mkVec3
                 F32.zero
                 (F32.mul F32.five
                    (Sin lib
                       (F32.mul (F32.mul F32.two F32.pi)
                          (F32.div (X (touchLoc g)) (Width geo)))))
                 (F32.neg
                    (F32.mul F32.five
                       (Cos lib
                          (F32.mul (F32.mul F32.two F32.pi)
                             (F32.div (X (touchLoc g)) (Width geo)))))))
              (mkVec3 F32.zero F32.zero F32.zero)
              (mkVec3 (F32.neg F32.one) F32.zero F32.zero)).
Proof.
  intro Hd. destruct (draw_matrixWrites _ _ _ _ _ _ _ Hd) as (evs & -> & Hm).
  exists evs. split; [reflexivity|]. rewrite Hm. reflexivity.
Qed.

Lemma view_eye_witness :
  exists g' t' evs,
    draw Demo.lib Demo.driver Demo.screen
         (set_touchLoc (globals_init Demo.assets)
                       (mkPoint (F32.lit 120 1) (F32.lit 400 1))) [] =
      Returned g' t' /\
    t' = [] ++ evs /\
    nth_error (matrixWrites evs) 1 =
      Some (view g',
            LookAt Demo.lib Mat4_zero
              (mkVec3
                 F32.zero
                 (F32.mul F32.five
                    (Sin Demo.lib
                       (F32.mul (F32.mul F32.two F32.pi)
                          (F32.div (F32.lit 120 1) (Width Demo.screen)))))
                 (F32.neg
                    (F32.mul F32.five
                       (Cos Demo.lib
                          (F32.mul (F32.mul F32.two F32.pi)
                             (F32.div (F32.lit 120 1)
                                      (Width Demo.screen)))))))
              (mkVec3 F32.zero F32.zero F32.zero)
              (mkVec3 (F32.neg F32.one) F32.zero F32.zero)).
Proof.
  destruct (draw Demo.lib Demo.driver Demo.screen
                 (set_touchLoc (globals_init Demo.assets)
                               (mkPoint (F32.lit 120 1) (F32.lit 400 1))) [])
    as [g' t'|t'] eqn:E; [|vm_compute in E; discriminate E].
  destruct (view_eye Demo.lib Demo.driver Demo.screen _ g' [] t' E)
    as (evs & H1 & H2).
  exists g', t', evs. repeat split; assumption.
Defined.

(** C9.  The matrices of a frame depend on the touch location and on the
    size of the surface only.  Two runs of [draw] with the same touch
    location and the same [geom.Width] and [geom.Height] write the same
    three matrices, bit for bit, whatever the rest of the state, the calls
    made before and the answers of the driver. *)
Theorem transforms_deterministic lib drv1 drv2 (geo : Geom)
  (g1 g2 g1' g2' : globals) (t1 t2 t1' t2' : trace) :
  touchLoc g1 = touchLoc g2 ->
  draw lib drv1 geo g1 t1 = Returned g1' t1' ->
  draw lib drv2 geo g2 t2 = Returned g2' t2' ->
  exists evs1 evs2 mProj mView mModel,
    t1' = t1 ++ evs1 /\
    t2' = t2 ++ evs2 /\
    map snd (matrixWrites evs1) = [mProj; mView; mModel] /\
    map snd (matrixWrites evs2) = [mProj; mView; mModel].
Proof.
  intros Ht H1 H2.
  destruct (draw_matrixWrites _ _ _ _ _ _ _ H1) as (evs1 & -> & Hm1).
  destruct (draw_matrixWrites _ _ _ _ _ _ _ H2) as (evs2 & -> & Hm2).
  exists evs1, evs2. do 3 eexists.
  split; [reflexivity|]. split; [reflexivity|].
  rewrite Hm1, Hm2. cbn [map snd].
  rewrite (eye_touchLoc lib geo g2 g1 Ht), (scale_touchLoc geo g2 g1 Ht).
  split; reflexivity.
Qed.

Lemma transforms_deterministic_witness :
  exists g1' t1' g2' t2' evs1 evs2 mProj mView mModel,
    draw Demo.lib Demo.driver Demo.screen (globals_init Demo.assets) [] =
      Returned g1' t1' /\
    draw Demo.lib Demo.failing Demo.screen (globals_init Demo.ragged)
         [debug_DrawFPS] = Returned g2' t2' /\
    t1' = [] ++ evs1 /\
    t2' = [debug_DrawFPS] ++ evs2 /\
    map snd (matrixWrites evs1) = [mProj; mView; mModel] /\
    map snd (matrixWrites evs2) = [mProj; mView; mModel].
Proof.
  destruct (draw Demo.lib Demo.driver Demo.screen
                 (globals_init Demo.assets) [])
    as [g1' t1'|t1'] eqn:E1; [|vm_compute in E1; discriminate E1].
  destruct (draw Demo.lib Demo.failing Demo.screen
                 (globals_init Demo.ragged) [debug_DrawFPS])
    as [g2' t2'|t2'] eqn:E2; [|vm_compute in E2; discriminate E2].
  destruct (transforms_deterministic Demo.lib Demo.driver Demo.failing
              Demo.screen (globals_init Demo.assets)
              (globals_init Demo.ragged) g1' g2' [] [debug_DrawFPS] t1' t2'
              eq_refl E1 E2)
    as (evs1 & evs2 & mProj & mView & mModel & H).
  exists g1', t1', g2', t2', evs1, evs2, mProj, mView, mModel.
  split; [reflexivity|]. split; [reflexivity|]. exact H.
Defined.


(** ** The scale of the model: binary32 division *)

Lemma div_eucl_exact (a b : Z) : 0 < b -> Z.div_eucl (a * b) b = (a, 0).
Proof.
  intro Hb. pose proof (Z.div_mul a b ltac:(lia)) as Hq.
  pose proof (Z.mod_mul a b ltac:(lia)) as Hr.
  unfold Z.div, Z.modulo in Hq, Hr.
  destruct (Z.div_eucl (a * b) b) as [q r]. now subst.
Qed.

Lemma new_location_exact (n : Z) : new_location n 0 = loc_Exact.
Proof. unfold new_location. now destruct (Z.even n). Qed.

Lemma SFdiv_core_same (m : positive) (e1 e2 : Z) :
  e1 - e2 = 0 \/ e1 - e2 = -1 ->
  SFdiv_core_binary F32.prec F32.emax (Zpos m) e1 (Zpos m) e2 =
  (16777216, e1 - e2 - 24, loc_Exact).
Proof.
  intro Hk. unfold SFdiv_core_binary.
  replace (Zdigits2 (Zpos m) + e1 - (Zdigits2 (Zpos m) + e2)) with (e1 - e2)
    by lia.
  replace (Z.min (fexp F32.prec F32.emax (e1 - e2)) (e1 - e2))
    with (e1 - e2 - 24)
    by (unfold fexp, emin, F32.prec, F32.emax; lia).
  replace (e1 - e2 - (e1 - e2 - 24)) with 24 by lia.
  rewrite Z.shiftl_mul_pow2 by lia.
  rewrite (Z.mul_comm (Zpos m)), div_eucl_exact by lia.
  now rewrite new_location_exact.
Qed.

Lemma F32_div_same (s : bool) (m : positive) (e : Z) :
  F32.div (S754_finite s m e) (S754_finite s m e) = F32.one.
Proof.
  unfold F32.div, SFdiv. rewrite SFdiv_core_same by lia.
  rewrite xorb_nilpotent. replace (e - e - 24) with (-24) by lia.
  reflexivity.
Qed.
Lemma F32_div_half (s : bool) (m : positive) (e : Z) :
  F32.div (S754_finite s m (e-1)) (S754_finite s m e) = F32.half.
Proof.
  unfold F32.div, SFdiv. rewrite SFdiv_core_same by lia.
  rewrite xorb_nilpotent. replace (e - 1 - e - 24) with (-25) by lia.
  reflexivity.
Qed.

Lemma F32_div_two (s : bool) (m : positive) (e : Z) :
  Zpos (digits2_pos m) = 24 -> -147 <= e <= 104 ->
  F32.div (S754_finite s m e) F32.two = S754_finite s m (e - 1).
Proof.
  intros Hd He. unfold F32.div, F32.two, SFdiv.
  assert (Hcore : SFdiv_core_binary F32.prec F32.emax (Zpos m) e 8388608 (-22)
                  = (Zpos m~0, e - 2, loc_Exact)).
  { unfold SFdiv_core_binary. cbn [Zdigits2]. rewrite Hd.
    change (Zpos (digits2_pos 8388608)) with 24.
    replace (Z.min (fexp F32.prec F32.emax (24 + e - (24 + -22))) (e - -22))
      with (e - 2)
      by (unfold fexp, emin, F32.prec, F32.emax; lia).
    replace (e - -22 - (e - 2)) with 24 by lia.
    rewrite Z.shiftl_mul_pow2 by lia.
    replace (Zpos m * 2 ^ 24) with (Zpos m~0 * 8388608) by lia.
    rewrite div_eucl_exact by lia.
    now rewrite new_location_exact. }
  rewrite Hcore. rewrite xorb_false_r.
  unfold binary_round_aux, shr_fexp. cbn [Zdigits2 digits2_pos].
  rewrite Pos2Z.inj_succ, Hd.
  replace (fexp F32.prec F32.emax (Z.succ 24 + (e - 2)) - (e - 2)) with 1
    by (unfold fexp, emin, F32.prec, F32.emax; lia).
  cbn [shr shr_record_of_loc iter_pos shr_1 shr_m loc_of_shr_record
       round_nearest_even orb Zdigits2].
  rewrite Hd.
  replace (fexp F32.prec F32.emax (24 + (e - 2 + 1)) - (e - 2 + 1)) with 0
    by (unfold fexp, emin, F32.prec, F32.emax; lia).
  cbn [shr shr_m].
  replace (e - 2 + 1 <=? F32.emax - F32.prec) with true
    by (symmetry; apply Z.leb_le; unfold F32.prec, F32.emax; lia).
  f_equal. lia.
Qed.

Lemma F32_div_zero (sy s : bool) (m : positive) (e : Z) :
  F32.add (F32.div (S754_zero sy) (S754_finite s m e)) F32.half = F32.half.
Proof. reflexivity. Qed.

(** Outside these conditions the scale is another number: not a number
    at all on a surface of height zero, and 0.5 at half the smallest
    positive height, which rounds to zero. *)
Example scale_height_zero :
  scale (mkGeom (F32.lit 480 1) F32.zero)
        (set_touchLoc (globals_init Demo.assets) (mkPoint F32.zero F32.zero))
  = S754_nan.
Proof. reflexivity. Qed.

Example scale_height_tiny :
  scale (mkGeom (F32.lit 480 1) (S754_finite false 1 (-149)))
        (set_touchLoc (globals_init Demo.assets)
           (mkPoint F32.zero
                    (F32.div (S754_finite false 1 (-149)) F32.two)))
  = F32.half.
Proof. reflexivity. Qed.

(** C8.  The model matrix of a frame is the identity scaled, along the
    three axes, by the touch y coordinate divided by the height of the
    surface, plus 0.5.  For a surface whose height is a finite non-zero
    number, the scale is 0.5 at y = 0 and 1.5 at y = height; it is 1.0 at
    y = height / 2 when the height is a normal number that can be halved
    exactly. *)
Theorem model_scale lib drv (geo : Geom) (g g' : globals) (t t' : trace) :
  draw lib drv geo g t = Returned g' t' ->
  F32.finite_nonzero (Height geo) = true ->
  (exists evs,
     t' = t ++ evs /\
     nth_error (matrixWrites evs) 2 =
       Some (model g',
             Scale lib (Identity lib Mat4_zero) (Identity lib Mat4_zero)
                   (scale geo g) (scale geo g) (scale geo g))) /\
  scale geo g = F32.add (F32.div (Y (touchLoc g)) (Height geo)) F32.half /\
  (Y (touchLoc g) = F32.zero -> scale geo g = F32.half) /\
  (Y (touchLoc g) = Height geo -> scale geo g = F32.one_and_half) /\
  (F32.halvable (Height geo) = true ->
   Y (touchLoc g) = F32.div (Height geo) F32.two ->
   scale geo g = F32.one).
Proof.
  intros Hd Hfin. split.
  { destruct (draw_matrixWrites _ _ _ _ _ _ _ Hd) as (evs & -> & Hm).
    exists evs. split; [reflexivity|]. now rewrite Hm. }
  split; [reflexivity|]. unfold scale.
  destruct (Height geo) as [| | |s m e]; try discriminate Hfin.
  repeat split.
  - intros ->. apply F32_div_zero.
  - intros ->. rewrite F32_div_same. reflexivity.
  - intros Hh ->. unfold F32.halvable in Hh.
    apply andb_prop in Hh. destruct Hh as (Hh & He2).
    apply andb_prop in Hh. destruct Hh as (Hdig & He1).
    apply Z.eqb_eq in Hdig. apply Z.leb_le in He1, He2.
    unfold F32.prec, F32.emax in *.
    rewrite F32_div_two by lia. rewrite F32_div_half. reflexivity.
Qed.

Lemma model_scale_witness :
  scale Demo.screen
        (set_touchLoc (globals_init Demo.assets)
                      (mkPoint F32.zero F32.zero)) = F32.half /\
  scale Demo.screen
        (set_touchLoc (globals_init Demo.assets)
                      (mkPoint F32.zero (F32.lit 800 1))) =
    F32.one_and_half /\
  scale Demo.screen
        (set_touchLoc (globals_init Demo.assets)
                      (mkPoint F32.zero (F32.lit 400 1))) = F32.one.
Proof.
  split; [|split].
  - destruct (draw Demo.lib Demo.driver Demo.screen
                   (set_touchLoc (globals_init Demo.assets)
                                 (mkPoint F32.zero F32.zero)) [])
      as [g' t'|t'] eqn:E; [|vm_compute in E; discriminate E].
    now apply (model_scale _ _ _ _ _ _ _ E eq_refl).
  - destruct (draw Demo.lib Demo.driver Demo.screen
                   (set_touchLoc (globals_init Demo.assets)
                                 (mkPoint F32.zero (F32.lit 800 1))) [])
      as [g' t'|t'] eqn:E; [|vm_compute in E; discriminate E].
    now apply (model_scale _ _ _ _ _ _ _ E eq_refl).
  - destruct (draw Demo.lib Demo.driver Demo.screen
                   (set_touchLoc (globals_init Demo.assets)
                                 (mkPoint F32.zero (F32.lit 400 1))) [])
      as [g' t'|t'] eqn:E; [|vm_compute in E; discriminate E].
    now apply (model_scale _ _ _ _ _ _ _ E eq_refl).
Defined.

(** ** [toBytes] *)

Lemma byte_of_Z_to_N (v : Z) :
  Z.of_N (Byte.to_N (byte_of_Z v)) = Z.land v 255.
Proof.
  unfold byte_of_Z.
  assert (H : 0 <= Z.land v 255 < 256).
  { change 255 with (Z.ones 8). rewrite Z.land_ones by lia.
    apply Z.mod_pos_bound. lia. }
  destruct (Byte.of_N (Z.to_N (Z.land v 255))) as [b|] eqn:E.
  - apply Byte.to_of_N in E. rewrite E. lia.
  - apply Byte.of_N_None_iff in E. lia.
Qed.

Lemma lor_shiftl (a b n : Z) :
  0 <= n -> 0 <= a < 2 ^ n -> Z.lor a (Z.shiftl b n) = a + b * 2 ^ n.
Proof.
  intros Hn Ha.
  assert (H0 : Z.land a (Z.shiftl b n) = 0).
  { apply Z.bits_inj'. intros i Hi. rewrite Z.land_spec, Z.bits_0.
    destruct (Z.lt_ge_cases i n) as [Hlt|Hge].
    - rewrite (Z.shiftl_spec_low b n i Hlt). apply andb_false_r.
    - destruct (Z.eq_dec a 0) as [->|Hne];
        [now rewrite Z.bits_0|].
      rewrite (Z.bits_above_log2 a i); [reflexivity|lia|].
      apply Z.lt_le_trans with n; [|assumption].
      apply Z.log2_lt_pow2; lia. }
  rewrite <- Z.lxor_lor, <- Z.add_nocarry_lxor by assumption.
  now rewrite Z.shiftl_mul_pow2.
Qed.

Lemma lor_disjoint (a c n : Z) :
  0 <= n -> 0 <= a < 2 ^ n -> c mod 2 ^ n = 0 -> Z.lor a c = a + c.
Proof.
  intros Hn Ha Hc.
  assert (E : c = Z.shiftl (c / 2 ^ n) n).
  { rewrite Z.shiftl_mul_pow2 by assumption.
    pose proof (Z.div_mod c (2 ^ n)). lia. }
  rewrite E at 1. rewrite lor_shiftl by assumption.
  pose proof (Z.div_mod c (2 ^ n)). lia.
Qed.

Lemma Uint32_PutUint32 (v : Z) (rest : list Byte.byte) :
  0 <= v < 2 ^ 32 -> Uint32 (PutUint32 v ++ rest) = v.
Proof.
  intro Hv. unfold PutUint32, Uint32. cbn [app].
  rewrite !byte_of_Z_to_N.
  change 255 with (Z.ones 8). rewrite !Z.land_ones by lia.
  rewrite !Z.shiftr_div_pow2, !Z.shiftl_mul_pow2 by lia.
  assert (B : forall x, 0 <= x mod 2 ^ 8 < 2 ^ 8)
    by (intro x; apply Z.mod_pos_bound; lia).
  pose proof (B v) as B0. pose proof (B (v / 2 ^ 8)) as B1.
  pose proof (B (v / 2 ^ 16)) as B2. pose proof (B (v / 2 ^ 24)) as B3.
  change (2 ^ 32) with 4294967296 in Hv.
  change (2 ^ 8) with 256 in *. change (2 ^ 16) with 65536 in *.
  change (2 ^ 24) with 16777216 in *.
  rewrite (lor_disjoint (_ * 65536) _ 24), (lor_disjoint (_ * 256) _ 16),
    (lor_disjoint _ _ 8); try lia.
  - Z.div_mod_to_equations. lia.
  - change (2 ^ 8) with 256. Z.div_mod_to_equations. lia.
  - change (2 ^ 16) with 65536. Z.div_mod_to_equations. lia.
  - change (2 ^ 24) with 16777216. Z.div_mod_to_equations. lia.
Qed.

Section BytesFacts.

Variable Float32bits : float32 -> Z.

Lemma toBytes_returned (v : list float32) (t : trace) :
  toBytes Float32bits v t =
  Returned (flat_map (fun x => PutUint32 (Float32bits x)) v) t.
Proof. reflexivity. Qed.

Lemma encode_inj (v w : list float32) :
  (forall x, 0 <= Float32bits x < 2 ^ 32) ->
  flat_map (fun x => PutUint32 (Float32bits x)) v =
  flat_map (fun x => PutUint32 (Float32bits x)) w ->
  map Float32bits v = map Float32bits w.
Proof.
  intro Hb. revert w. induction v as [|x v IH]; intros [|y w] H;
    try reflexivity; try discriminate H.
  cbn [flat_map map] in *.
  assert (Hh : Float32bits x = Float32bits y).
  { rewrite <- (Uint32_PutUint32 (Float32bits x)
                  (flat_map (fun x => PutUint32 (Float32bits x)) v))
      by apply Hb.
    rewrite H. apply Uint32_PutUint32, Hb. }
  rewrite Hh in H. apply app_inv_head in H. f_equal; auto.
Qed.


Lemma Forall2_compose {A B C} (R : A -> B -> Prop) (S : A -> C -> Prop)
  (T : B -> C -> Prop) (l : list A) (l' : list B) (l'' : list C) :
  (forall a b c, R a b -> S a c -> T b c) ->
  Forall2 R l l' -> Forall2 S l l'' -> Forall2 T l' l''.
Proof.
  intros H HR. revert l''. induction HR; intros l'' HS; inversion HS; subst;
    constructor; eauto.
Qed.

Lemma encode_length (v : list float32) :
  List.length (flat_map (fun x => PutUint32 (Float32bits x)) v) =
  (4 * List.length v)%nat.
Proof. induction v as [|x v IH]; simpl; [reflexivity|]. rewrite IH. lia. Qed.

(** X1.  [toBytes] returns four bytes per element, makes no call and never
    reaches [log.Fatal]. *)
Theorem toBytes_length (v : list float32) (t : trace) :
  exists buf,
    toBytes Float32bits v t = Returned buf t /\
    List.length buf = (4 * List.length v)%nat.
Proof.
  rewrite toBytes_returned. eexists. split; [reflexivity|].
  apply encode_length.
Qed.

(** X2.  [toBytes] loses nothing: two slices with the same bytes have the
    same bit patterns, element by element. *)
Theorem toBytes_injective (v w : list float32) (buf : list Byte.byte)
  (t1 t1' t2 t2' : trace) :
  (forall x, 0 <= Float32bits x < 2 ^ 32) ->
  toBytes Float32bits v t1 = Returned buf t1' ->
  toBytes Float32bits w t2 = Returned buf t2' ->
  map Float32bits v = map Float32bits w.
Proof.
  intros Hb Hv Hw. rewrite toBytes_returned in Hv, Hw.
  injection Hv as Hv _. injection Hw as Hw _.
  apply encode_inj; [assumption|congruence].
Qed.

(** X3.  When the vertex stream of a piece decompresses to what [toBytes]
    makes of a slice of floats, [initGL] sets the vertex count of the piece
    to the number of floats divided by 3: it counts whole vertices. *)
Theorem initGL_counts_vertices lib drv (g g' : globals) (t t' : trace)
  (vss : list (list float32)) :
  snd (created drv t) = None ->
  initGL lib drv g t = Returned g' t' ->
  Forall2 (fun p vs =>
             exists u, toBytes Float32bits vs u =
                       Returned (decompressed lib (vertexData p)) u)
          (pieces g) vss ->
  Forall2 (fun p' vs => vertexCount p' = Z.of_nat (List.length vs) / 3)
          (pieces g') vss.
Proof.
  intros Hc Hr Hvs.
  destruct (appends_returned _ _ _ _ _ (initGL_success lib drv g t Hc) Hr)
    as (evs & _ & _ & _ & _ & _ & Hf & _).
  revert Hf Hvs. apply Forall2_compose.
  intros p p' vs Hi (u & Hu).
  rewrite toBytes_returned in Hu. injection Hu as Hu.
  destruct Hi as (_ & _ & _ & _ & _ & ->). rewrite <- Hu, encode_length.
  unfold coordsPerVertex. rewrite Nat2Z.inj_mul.
  now rewrite Z.mul_comm, Z.div_mul by lia.
Qed.

End BytesFacts.

Lemma toBytes_injective_witness :
  map Demo_Float32bits [F32.one; F32.neg F32.half] =
  map Demo_Float32bits [F32.one; F32.neg F32.half].
Proof.
  apply (toBytes_injective Demo_Float32bits
           [F32.one; F32.neg F32.half] [F32.one; F32.neg F32.half]
           (flat_map (fun x => PutUint32 (Demo_Float32bits x))
                     [F32.one; F32.neg F32.half])
           [] [] [debug_DrawFPS] [debug_DrawFPS]).
  - intro x. apply Z.mod_pos_bound. lia.
  - reflexivity.
  - reflexivity.
Defined.

Lemma initGL_counts_vertices_witness :
  exists g' t',
    initGL Demo.lib Demo.driver (globals_init Demo.assets) [] =
      Returned g' t' /\
    Forall2 (fun p' vs => vertexCount p' = Z.of_nat (List.length vs) / 3)
            (pieces g') (repeat (repeat F32.zero 9) 12).
Proof.
  destruct (initGL Demo.lib Demo.driver (globals_init Demo.assets) [])
    as [g' t'|t'] eqn:E; [|vm_compute in E; discriminate E].
  exists g', t'. split; [reflexivity|].
  apply (initGL_counts_vertices Demo_Float32bits Demo.lib Demo.driver
           (globals_init Demo.assets) g' [] t'); [reflexivity|exact E|].
  repeat (constructor; [exists []; reflexivity|]). constructor.
Defined.

(** ** The buffers of the pieces *)

Lemma initGL_piece_returned lib drv (p p' : piece) (t t' : trace) :
  initGL_piece lib drv p t = Returned p' t' ->
  t' = t ++ upload_events lib p' /\ same_asset p p'.
Proof.
  unfold initGL_piece, flateBytes, upload_events, decompressed, same_asset.
  destruct (flate_ReadAll lib (vertexData p)) as [v [e|]] eqn:Hv;
    [run_calls; discriminate|].
  destruct (flate_ReadAll lib (normalData p)) as [n [e|]] eqn:Hn;
    [run_calls; discriminate|].
  run_calls. intro H. injection H as <- <-. simpl. rewrite Hv, Hn. auto.
Qed.

Lemma initGL_range_returned lib drv (ps ps' : list piece) (t t' : trace) :
  range (initGL_piece lib drv) ps t = Returned ps' t' ->
  t' = t ++ flat_map (upload_events lib) ps' /\ Forall2 same_asset ps ps'.
Proof.
  revert ps' t t'. induction ps as [|p ps IH]; intros ps' t t'; simpl.
  - unfold ret. intro H. injection H as <- <-. rewrite app_nil_r. auto.
  - unfold bind at 1.
    destruct (initGL_piece lib drv p t) as [p1 t1|t1] eqn:E1;
      [|discriminate].
    unfold bind at 1.
    destruct (range (initGL_piece lib drv) ps t1) as [ps1 t2|t2] eqn:E2;
      [|discriminate].
    unfold ret. intro H. injection H as <- <-.
    apply initGL_piece_returned in E1. destruct E1 as (-> & Hs).
    apply IH in E2. destruct E2 as (-> & Hss).
    simpl. rewrite <- app_assoc. auto.
Qed.

(** All the calls of an [initGL] that returns after creating the program:
    the uploads of the pieces it leaves, then the lookups. *)
Lemma initGL_events lib drv (g : globals) (t : trace) :
  snd (created drv t) = None ->
  appends (initGL lib drv g) t (fun r evs =>
    match r with
    | Some g' =>
        exists rest,
          evs = [ gl_Enable gl.DEPTH_TEST;
                  glutil_CreateProgram vertexShader fragmentShader
                                       (created drv t) ]
                ++ flat_map (upload_events lib) (pieces g') ++ rest /\
          Forall (fun e => isUpload e = false) rest /\
          count isLookup rest = 10%nat
    | None => True
    end).
Proof.
  intro H. unfold initGL. apply appends_emit. apply appends_ask.
  fold (created drv t). cbv beta zeta. rewrite H.
  eapply appends_bind with
    (Q1 := fun r evs =>
             match r with
             | Some ps' => evs = flat_map (upload_events lib) ps'
             | None => True
             end).
  - unfold appends.
    match goal with
    | |- match ?m with _ => _ end =>
        destruct m as [ps' t'|t'] eqn:E;
        [ apply initGL_range_returned in E; destruct E as (-> & _);
          eexists; split; reflexivity
        | pose proof (initGL_range_spec lib drv
                        (pieces (set_program g (fst (created drv t))))
                        ((t ++ [gl_Enable gl.DEPTH_TEST]) ++
                         [glutil_CreateProgram vertexShader fragmentShader
                            (created drv t)])) as Hs;
          unfold appends in Hs; rewrite E in Hs;
          destruct Hs as (evs & -> & _); exists evs; auto ]
    end.
  - intros ps' evs ->. cbv beta zeta. unfold attrib, uniform, initMVP.
    cbn [pieces set_program set_pieces program].
    step_calls. apply appends_ret. cbn [pieces].
    eexists. split; [reflexivity|]. split; [repeat constructor|reflexivity].
  - auto.
Qed.

Lemma buffers_after_app (a b : trace) (s : buffers) :
  buffers_after (a ++ b) s = buffers_after b (buffers_after a s).
Proof. apply fold_left_app. Qed.

Lemma buffers_after_other (evs : trace) (s : buffers) :
  Forall (fun e => isUpload e = false) evs -> buffers_after evs s = s.
Proof.
  intro H. revert s. induction H as [|e evs He _ IH]; intro s;
    [reflexivity|].
  simpl. rewrite <- (IH s) at 2. f_equal. now destruct e.
Qed.

Lemma bind_data (s : buffers) (target usage : Z) (b : Buffer)
  (data : list Byte.byte) :
  bufferValue b <> 0 ->
  buffers_step (buffers_step s (gl_BindBuffer target b))
               (gl_BufferData target usage data) =
  mkBuffers (fun x => if x =? target then b else binding s x)
            (fun n => if n =? bufferValue b then Some data else store s n).
Proof.
  intro H. unfold buffers_step. cbn [binding store].
  rewrite Z.eqb_refl. apply Z.eqb_neq in H. now rewrite H.
Qed.

Lemma Forall2_Forall_r {A B} (P : B -> Prop) (R Q : A -> B -> Prop)
  (l : list A) (l' : list B) :
  (forall a b, R a b -> P b -> Q a b) ->
  Forall2 R l l' -> Forall P l' -> Forall2 Q l l'.
Proof.
  intros H HR. induction HR; intro HP; inversion HP; subst; constructor;
    auto.
Qed.

(** The stores after one round of the loop. *)
Lemma upload_store lib (p : piece) (s : buffers) (n : Z) :
  bufferValue (verticies p) <> 0 ->
  bufferValue (normals p) <> 0 ->
  store (buffers_after (upload_events lib p) s) n =
  if n =? bufferValue (normals p)
  then Some (decompressed lib (normalData p))
  else if n =? bufferValue (verticies p)
       then Some (decompressed lib (vertexData p))
       else store s n.
Proof.
  intros Hv Hn. unfold upload_events, buffers_after. cbn [fold_left].
  change (buffers_step s (gl_GenBuffer (verticies p))) with s.
  change (buffers_step s (gl_GenBuffer (normals p))) with s.
  rewrite !bind_data by assumption. reflexivity.
Qed.

Lemma uploads_keep lib (ps : list piece) (s : buffers) (n : Z) :
  ~ In 0 (buffer_names ps) ->
  ~ In n (buffer_names ps) ->
  store (buffers_after (flat_map (upload_events lib) ps) s) n = store s n.
Proof.
  revert s. induction ps as [|p ps IH]; intros s H0 Hn; [reflexivity|].
  cbn [flat_map]. rewrite buffers_after_app.
  cbn [buffer_names flat_map app In] in H0, Hn.
  rewrite IH by tauto. rewrite upload_store by (intro; apply H0; auto).
  destruct (Z.eqb_spec n (bufferValue (normals p)));
    [exfalso; apply Hn; subst; auto|].
  destruct (Z.eqb_spec n (bufferValue (verticies p)));
    [exfalso; apply Hn; subst; auto|].
  reflexivity.
Qed.

Lemma uploads_store lib (ps : list piece) (s : buffers) :
  NoDup (buffer_names ps) ->
  ~ In 0 (buffer_names ps) ->
  Forall (fun p =>
            store (buffers_after (flat_map (upload_events lib) ps) s)
                  (bufferValue (verticies p)) =
              Some (decompressed lib (vertexData p)) /\
            store (buffers_after (flat_map (upload_events lib) ps) s)
                  (bufferValue (normals p)) =
              Some (decompressed lib (normalData p)))
         ps.
Proof.
  revert s. induction ps as [|p ps IH]; intros s Hnd H0; [constructor|].
  cbn [buffer_names flat_map app] in Hnd, H0.
  fold (buffer_names ps) in Hnd, H0.
  inversion Hnd as [|? ? Hv Hnd1]; subst.
  inversion Hnd1 as [|? ? Hn Hnd2]; subst.
  cbn [In] in Hv, H0.
  constructor.
  - cbn [flat_map]. rewrite buffers_after_app.
    rewrite !uploads_keep by tauto.
    rewrite !upload_store by (intro; apply H0; auto).
    rewrite Z.eqb_refl.
    destruct (Z.eqb_spec (bufferValue (verticies p))
                         (bufferValue (normals p)));
      [exfalso; apply Hv; auto|].
    rewrite Z.eqb_refl. auto.
  - cbn [flat_map].
    assert (H := IH (buffers_after (upload_events lib p) s) Hnd2
                   ltac:(tauto)).
    revert H. apply Forall_impl. intros q Hq.
    now rewrite buffers_after_app.
Qed.

(** X4.  When [initGL] returns after creating the program and the driver
    has handed out buffer names that are distinct and not 0, every piece
    owns two buffers on the GL side: the one named by [verticies] holds its
    decompressed positions and the one named by [normals] its decompressed
    normals, whatever the buffers held before. *)
Theorem initGL_uploads lib drv (g g' : globals) (t t' : trace)
  (s : buffers) :
  snd (created drv t) = None ->
  initGL lib drv g t = Returned g' t' ->
  NoDup (buffer_names (pieces g')) ->
  ~ In 0 (buffer_names (pieces g')) ->
  exists evs,
    t' = t ++ evs /\
    Forall2 (fun p p' =>
               store (buffers_after evs s) (bufferValue (verticies p')) =
                 Some (decompressed lib (vertexData p)) /\
               store (buffers_after evs s) (bufferValue (normals p')) =
                 Some (decompressed lib (normalData p)))
            (pieces g) (pieces g').
Proof.
  intros Hc Hr Hnd H0.
  destruct (appends_returned _ _ _ _ _ (initGL_events lib drv g t Hc) Hr)
    as (evs & -> & rest & -> & Hrest & _).
  destruct (appends_returned _ _ _ _ _ (initGL_success lib drv g t Hc) Hr)
    as (evs' & _ & _ & _ & _ & _ & Hf & _).
  eexists. split; [reflexivity|].
  rewrite !buffers_after_app, (buffers_after_other rest) by assumption.
  pose proof (uploads_store lib (pieces g')
                (buffers_after
                   [gl_Enable gl.DEPTH_TEST;
                    glutil_CreateProgram vertexShader fragmentShader
                                         (created drv t)] s) Hnd H0) as Hs.
  revert Hf Hs. apply Forall2_Forall_r.
  intros p p' (_ & _ & Hv & Hn & _) Hp. now rewrite <- Hv, <- Hn.
Qed.

Lemma distinct_names_sound (l : list Z) :
  distinct_names l = true -> NoDup l /\ ~ In 0 l.
Proof.
  induction l as [|x l IH]; simpl; [split; [constructor|tauto]|].
  intro H. apply andb_prop in H. destruct H as (H & Hl).
  apply andb_prop in H. destruct H as (H0 & Hx).
  apply negb_true_iff in H0, Hx. apply Z.eqb_neq in H0.
  destruct (IH Hl) as (Hnd & Hz). split.
  - constructor; [|assumption]. intro Hin.
    assert (existsb (Z.eqb x) l = true)
      by (apply existsb_exists; exists x; split; [assumption|apply Z.eqb_refl]).
    congruence.
  - intros [E|E]; [congruence|tauto].
Qed.

Lemma initGL_uploads_witness :
  exists g' t' evs,
    initGL Demo.lib Demo.driver (globals_init Demo.ragged) [] =
      Returned g' t' /\
    t' = [] ++ evs /\
    Forall2 (fun p p' =>
               store (buffers_after evs
                        (mkBuffers (fun _ => mkBuffer 0) (fun _ => None)))
                     (bufferValue (verticies p')) =
                 Some (decompressed Demo.lib (vertexData p)) /\
               store (buffers_after evs
                        (mkBuffers (fun _ => mkBuffer 0) (fun _ => None)))
                     (bufferValue (normals p')) =
                 Some (decompressed Demo.lib (normalData p)))
            (pieces (globals_init Demo.ragged)) (pieces g').
Proof.
  destruct (initGL Demo.lib Demo.driver (globals_init Demo.ragged) [])
    as [g' t'|t'] eqn:E; [|vm_compute in E; discriminate E].
  assert (Hd : distinct_names (buffer_names (pieces g')) = true).
  { vm_compute in E. injection E as <- _. reflexivity. }
  apply distinct_names_sound in Hd. destruct Hd as (Hnd & H0).
  destruct (initGL_uploads Demo.lib Demo.driver (globals_init Demo.ragged)
              g' [] t' (mkBuffers (fun _ => mkBuffer 0) (fun _ => None))
              eq_refl E Hnd H0) as (evs & H).
  exists g', t', evs. split; [reflexivity|exact H].
Defined.

(** ** The attributes of a frame *)

Lemma attribPointers_pieces (g : globals) (ps : list piece) (b : Buffer)
  (post : list event) :
  (forall b', attribPointers gl.ARRAY_BUFFER b' post = []) ->
  attribPointers gl.ARRAY_BUFFER b (flat_map (piece_events g) ps ++ post) =
  flat_map (fun p => [(position g, verticies p); (normal g, normals p)]) ps.
Proof.
  intro Hpost. revert b. induction ps as [|p ps IH]; intro b.
  - apply Hpost.
  - cbn [flat_map piece_events app attribPointers].
    change (gl.ARRAY_BUFFER =? gl.ARRAY_BUFFER) with true. cbv iota.
    now rewrite IH.
Qed.

(** X5.  In every frame, whatever was bound before, the position attribute
    of each piece is described while the buffer [verticies] of that piece is
    bound and its normal attribute while its buffer [normals] is bound,
    piece after piece in the order of declaration. *)
Theorem frame_reads_own_buffers lib drv (geo : Geom) (g g' : globals)
  (t t' : trace) (b : Buffer) :
  draw lib drv geo g t = Returned g' t' ->
  exists evs0 frame,
    t' = t ++ evs0 ++ frame /\
    Forall (fun e => isRender e = false) evs0 /\
    attribPointers gl.ARRAY_BUFFER b frame =
      flat_map (fun p => [(position g', verticies p); (normal g', normals p)])
               (pieces g') /\
    List.length (drawCalls frame) = List.length (pieces g').
Proof.
  intro Hd. destruct (draw_returned _ _ _ _ _ _ _ Hd)
    as (evs0 & -> & Hn & _ & _).
  exists evs0, (frame_events lib geo g'). split; [reflexivity|].
  split; [assumption|]. split.
  - unfold frame_events. cbn [app attribPointers].
    now apply attribPointers_pieces.
  - now rewrite frame_drawCalls, length_map.
Qed.

Lemma frame_reads_own_buffers_witness :
  exists g' t' evs0 frame,
    draw Demo.lib Demo.driver Demo.screen (globals_init Demo.assets) [] =
      Returned g' t' /\
    t' = [] ++ evs0 ++ frame /\
    Forall (fun e => isRender e = false) evs0 /\
    attribPointers gl.ARRAY_BUFFER (mkBuffer 0) frame =
      flat_map (fun p => [(position g', verticies p); (normal g', normals p)])
               (pieces g') /\
    List.length (drawCalls frame) = List.length (pieces g').
Proof.
  destruct (draw Demo.lib Demo.driver Demo.screen
                 (globals_init Demo.assets) [])
    as [g' t'|t'] eqn:E; [|vm_compute in E; discriminate E].
  destruct (frame_reads_own_buffers Demo.lib Demo.driver Demo.screen
              (globals_init Demo.assets) g' [] t' (mkBuffer 0) E)
    as (evs0 & frame & H).
  exists g', t', evs0, frame. split; [reflexivity|exact H].
Defined.

(** ** Where [initGL] stops *)

Lemma initGL_piece_exit lib drv (p : piece) (t : trace) (err : string) :
  first_error lib p = Some err ->
  initGL_piece lib drv p t = Exited (t ++ [log_Fatal err]).
Proof.
  unfold first_error, initGL_piece, flateBytes.
  destruct (flate_ReadAll lib (vertexData p)) as [v [e|]]; simpl.
  - intros [= ->]. reflexivity.
  - destruct (flate_ReadAll lib (normalData p)) as [n [e|]]; simpl;
      [|discriminate].
    intros [= ->]. reflexivity.
Qed.

Lemma upload_counts lib (ps : list piece) :
  count isGenBuffer (flat_map (upload_events lib) ps)
    = (2 * List.length ps)%nat /\
  count isBufferData (flat_map (upload_events lib) ps)
    = (2 * List.length ps)%nat /\
  count isLookup (flat_map (upload_events lib) ps) = 0%nat.
Proof.
  unfold count. induction ps as [|p ps (IH1 & IH2 & IH3)]; simpl;
    [auto|].
  rewrite IH1, IH2, IH3. repeat split; lia.
Qed.

Lemma initGL_range_exit lib drv (ok : list piece) (p : piece)
  (rest : list piece) (t : trace) (err : string) :
  Forall (fun q => decompresses lib (vertexData q) = true /\
                   decompresses lib (normalData q) = true) ok ->
  first_error lib p = Some err ->
  exists ok',
    List.length ok' = List.length ok /\
    range (initGL_piece lib drv) (ok ++ p :: rest) t =
    Exited (t ++ flat_map (upload_events lib) ok' ++ [log_Fatal err]).
Proof.
  intros Hok Herr. revert t. induction Hok as [|q ok (Hv & Hn) _ IH];
    intro t.
  - exists []. split; [reflexivity|]. simpl. unfold bind.
    now rewrite (initGL_piece_exit lib drv p t err Herr).
  - cbn [app range]. unfold bind at 1.
    pose proof (initGL_piece_spec lib drv q t) as Hs. unfold appends in Hs.
    destruct (initGL_piece lib drv q t) as [q' t1|t1] eqn:E.
    + apply initGL_piece_returned in E. destruct E as (-> & _).
      destruct (IH (t ++ upload_events lib q')) as (ok' & Hlen & Hr).
      exists (q' :: ok'). split; [simpl; congruence|].
      unfold bind at 1. rewrite Hr. cbn [flat_map].
      now rewrite <- !app_assoc.
    + exfalso. destruct Hs as (evs & _ & [Hc|Hc] & _); congruence.
Qed.

(** X6.  When the program has been created, [initGL] decompresses and
    uploads piece by piece and stops at the first piece of which a stream
    does not decompress.  It exits with the error of that stream, after
    generating and filling two buffers for each piece before it, and
    before looking up any attribute or uniform. *)
Theorem initGL_stops_at_first_corrupt lib drv (g : globals) (t : trace)
  (ok : list piece) (p : piece) (rest : list piece) (err : string) :
  snd (created drv t) = None ->
  pieces g = ok ++ p :: rest ->
  Forall (fun q => decompresses lib (vertexData q) = true /\
                   decompresses lib (normalData q) = true) ok ->
  first_error lib p = Some err ->
  exists evs,
    initGL lib drv g t = Exited (t ++ evs ++ [log_Fatal err]) /\
    count isGenBuffer evs = (2 * List.length ok)%nat /\
    count isBufferData evs = (2 * List.length ok)%nat /\
    count isLookup evs = 0%nat.
Proof.
  intros Hc Hps Hok Herr.
  destruct (initGL_range_exit lib drv ok p rest
              ((t ++ [gl_Enable gl.DEPTH_TEST]) ++
               [glutil_CreateProgram vertexShader fragmentShader
                                     (created drv t)]) err Hok Herr)
    as (ok' & Hlen & Hr).
  exists ([gl_Enable gl.DEPTH_TEST;
           glutil_CreateProgram vertexShader fragmentShader (created drv t)]
          ++ flat_map (upload_events lib) ok').
  split.
  - unfold initGL, bind at 1, emit at 1, bind at 1, ask at 1.
    fold (created drv t). cbv zeta. rewrite Hc. unfold bind at 1.
    cbn [pieces set_program]. rewrite Hps, Hr.
    now rewrite <- !app_assoc.
  - rewrite !count_app.
    destruct (upload_counts lib ok') as (-> & -> & ->). rewrite Hlen.
    unfold count; simpl. repeat split; lia.
Qed.

Lemma initGL_stops_at_first_corrupt_witness :
  exists evs,
    initGL Demo.lib Demo.driver (globals_init Demo.corrupt) [] =
      Exited ([] ++ evs ++ [log_Fatal "unexpected EOF"]) /\
    count isGenBuffer evs = (2 * 3)%nat /\
    count isBufferData evs = (2 * 3)%nat /\
    count isLookup evs = 0%nat.
Proof.
  apply (initGL_stops_at_first_corrupt Demo.lib Demo.driver
           (globals_init Demo.corrupt) []
           (firstn 3 (pieces_lit Demo.corrupt))
           (nth 3 (pieces_lit Demo.corrupt) (piece_lit [] [] white))
           (skipn 4 (pieces_lit Demo.corrupt))).
  - reflexivity.
  - reflexivity.
  - repeat constructor.
  - reflexivity.
Defined.

(** ** The uniform slots of a frame *)

Lemma vec4Writes_app (t u : trace) :
  vec4Writes (t ++ u) = vec4Writes t ++ vec4Writes u.
Proof.
  induction t as [|e t IH]; simpl; [reflexivity|].
  destruct e; simpl; now rewrite ?IH.
Qed.

Lemma vec4Writes_none (t : trace) :
  Forall (fun e => isRender e = false) t -> vec4Writes t = [].
Proof.
  induction 1 as [|e t He _ IH]; simpl; [reflexivity|].
  destruct e; simpl; try assumption; discriminate.
Qed.

Lemma frame_vec4Writes lib (geo : Geom) (g : globals) :
  vec4Writes (frame_events lib geo g) =
  flat_map (fun p => [ (lightDiffuseColor g, color p);
                       (lightAmbientColor g, color p) ]) (pieces g).
Proof.
  unfold frame_events. rewrite !vec4Writes_app. simpl.
  rewrite app_nil_r. induction (pieces g) as [|p ps IH]; simpl; congruence.
Qed.

(** The handles [initGL] leaves are the answers to its lookups, each under
    its own name; [materialShininess] is not among them. *)
Lemma initGL_handles lib drv (g : globals) (t : trace) :
  snd (created drv t) = None ->
  appends (initGL lib drv g) t (fun r evs =>
    match r with
    | Some g' =>
        In (gl_GetAttribLocation (program g') "position" (position g')) evs /\
        In (gl_GetAttribLocation (program g') "normal" (normal g')) evs /\
        In (gl_GetUniformLocation (program g') "lightDirection"
                                  (lightDirection g')) evs /\
        In (gl_GetUniformLocation (program g') "lightAmbientColor"
                                  (lightAmbientColor g')) evs /\
        In (gl_GetUniformLocation (program g') "lightDiffuseColor"
                                  (lightDiffuseColor g')) evs /\
        In (gl_GetUniformLocation (program g') "materialAmbientFactor"
                                  (materialAmbientFactor g')) evs /\
        In (gl_GetUniformLocation (program g') "materialDiffuseFactor"
                                  (materialDiffuseFactor g')) evs /\
        In (gl_GetUniformLocation (program g') "model" (model g')) evs /\
        In (gl_GetUniformLocation (program g') "view" (view g')) evs /\
        In (gl_GetUniformLocation (program g') "projection"
                                  (projection g')) evs /\
        materialShininess g' = materialShininess g
    | None => True
    end).
Proof.
  intro H. unfold initGL. apply appends_emit. apply appends_ask.
  fold (created drv t). cbv beta zeta. rewrite H.
  eapply appends_bind with (Q1 := fun _ _ => True).
  - eapply appends_weaken; [apply initGL_range_spec|auto].
  - intros ps' evs _. cbv beta zeta. unfold attrib, uniform, initMVP.
    cbn [pieces set_program set_pieces program].
    step_calls. apply appends_ret.
    cbn [program position normal lightDirection lightAmbientColor
         lightDiffuseColor materialAmbientFactor materialDiffuseFactor
         materialShininess model view projection set_pieces set_program].
    repeat split;
      try (right; right; apply in_or_app; right; simpl; auto 15).
  - auto.
Qed.

(** X7.  In the frame that initialises, every value goes to the slot that
    [initGL] has just resolved under the matching name: the three matrices
    to the locations of "projection", "view" and "model", in this order,
    and the colour of each piece to those of "lightDiffuseColor", then
    "lightAmbientColor". *)
Theorem frame_uses_resolved_locations lib drv (geo : Geom)
  (g g' : globals) (t t' : trace) :
  programValue (program g) = 0 ->
  snd (created drv t) = None ->
  draw lib drv geo g t = Returned g' t' ->
  exists evs uProjection uView uModel uDiffuse uAmbient,
    t' = t ++ evs /\
    In (gl_GetUniformLocation (fst (created drv t)) "projection" uProjection)
       evs /\
    In (gl_GetUniformLocation (fst (created drv t)) "view" uView) evs /\
    In (gl_GetUniformLocation (fst (created drv t)) "model" uModel) evs /\
    In (gl_GetUniformLocation (fst (created drv t)) "lightDiffuseColor"
                              uDiffuse) evs /\
    In (gl_GetUniformLocation (fst (created drv t)) "lightAmbientColor"
                              uAmbient) evs /\
    map fst (matrixWrites evs) = [uProjection; uView; uModel] /\
    map fst (vec4Writes evs) =
      flat_map (fun _ => [uDiffuse; uAmbient]) (pieces g').
Proof.
  intros Hz Hc Hd. rewrite draw_init in Hd by assumption.
  destruct (initGL lib drv g t) as [g1 t1|t1] eqn:Hi; [|discriminate Hd].
  injection Hd as <- <-.
  destruct (appends_returned _ _ _ _ _ (initGL_handles lib drv g t Hc) Hi)
    as (evs & -> & _ & _ & _ & Ha & Hdf & _ & _ & Hm & Hv & Hp & _).
  destruct (appends_returned _ _ _ _ _ (initGL_success lib drv g t Hc) Hi)
    as (evs' & He & Hn & _ & _ & Hprog & _).
  apply app_inv_head in He. subst evs'. rewrite Hprog in *.
  exists (evs ++ log_Printf "example/basic rendering initialized"
              :: frame_events lib geo g1),
    (projection g1), (view g1), (model g1), (lightDiffuseColor g1),
    (lightAmbientColor g1).
  rewrite <- app_assoc. split; [reflexivity|].
  repeat (split; [apply in_or_app; left; assumption|]).
  change (log_Printf ?m :: ?l) with ([log_Printf m] ++ l).
  rewrite !matrixWrites_app, !vec4Writes_app.
  rewrite (matrixWrites_none evs Hn), (vec4Writes_none evs Hn).
  rewrite frame_matrixWrites, frame_vec4Writes. split; [reflexivity|].
  simpl. induction (pieces g1) as [|p ps IH]; simpl; congruence.
Qed.

Lemma frame_uses_resolved_locations_witness :
  exists g' t' evs uProjection uView uModel uDiffuse uAmbient,
    draw Demo.lib Demo.driver Demo.screen (globals_init Demo.assets) [] =
      Returned g' t' /\
    t' = [] ++ evs /\
    In (gl_GetUniformLocation (fst (created Demo.driver [])) "projection"
                              uProjection) evs /\
    In (gl_GetUniformLocation (fst (created Demo.driver [])) "view" uView)
       evs /\
    In (gl_GetUniformLocation (fst (created Demo.driver [])) "model" uModel)
       evs /\
    In (gl_GetUniformLocation (fst (created Demo.driver []))
                              "lightDiffuseColor" uDiffuse) evs /\
    In (gl_GetUniformLocation (fst (created Demo.driver []))
                              "lightAmbientColor" uAmbient) evs /\
    map fst (matrixWrites evs) = [uProjection; uView; uModel] /\
    map fst (vec4Writes evs) =
      flat_map (fun _ => [uDiffuse; uAmbient]) (pieces g').
Proof.
  destruct (draw Demo.lib Demo.driver Demo.screen
                 (globals_init Demo.assets) [])
    as [g' t'|t'] eqn:E; [|vm_compute in E; discriminate E].
  destruct (frame_uses_resolved_locations Demo.lib Demo.driver Demo.screen
              (globals_init Demo.assets) g' [] t' eq_refl eq_refl E)
    as (evs & uP & uV & uM & uD & uA & H).
  exists g', t', evs, uP, uV, uM, uD, uA. split; [reflexivity|exact H].
Defined.

(** ** Touches *)

(** X8.  Only the last touch counts: after any callbacks that return, the
    touch location is the one of the last touch event, or the one before
    the callbacks if there was none.  No [draw], initialising or not,
    changes it. *)
Theorem run_touchLoc lib drv (cs : list callback) (g g' : globals)
  (t t' : trace) :
  run lib drv cs g t = Returned g' t' ->
  touchLoc g' = lastTouch cs (touchLoc g).
Proof.
  revert g t. induction cs as [|c cs IH]; intros g t; simpl.
  - unfold ret. now intros [= <- _].
  - unfold bind.
    destruct (callback_run lib drv c g t) as [g1 t1|t1] eqn:E;
      [|discriminate].
    intro H. apply IH in H. rewrite H. f_equal.
    destruct c as [geo|tch]; simpl in E.
    + now destruct (draw_returned _ _ _ _ _ _ _ E) as (_ & _ & _ & -> & _).
    + rewrite touch_returned in E. now injection E as <- _.
Qed.

Lemma run_touchLoc_witness :
  exists g' t',
    run Demo.lib Demo.driver
        [ TouchEvent (mkTouch 0 0 (mkPoint F32.one F32.two));
          Draw Demo.screen;
          TouchEvent (mkTouch 0 1 (mkPoint F32.five F32.half));
          Draw Demo.screen ]
        (globals_init Demo.assets) [] = Returned g' t' /\
    touchLoc g' = mkPoint F32.five F32.half.
Proof.
  destruct (run Demo.lib Demo.driver
        [ TouchEvent (mkTouch 0 0 (mkPoint F32.one F32.two));
          Draw Demo.screen;
          TouchEvent (mkTouch 0 1 (mkPoint F32.five F32.half));
          Draw Demo.screen ]
        (globals_init Demo.assets) []) as [g' t'|t'] eqn:E;
    [|vm_compute in E; discriminate E].
  exists g', t'. split; [reflexivity|].
  apply (run_touchLoc _ _ _ _ _ _ _ E).
Defined.

Lemma set_touchLoc_same (g : globals) : set_touchLoc g (touchLoc g) = g.
Proof. now destruct g. Qed.

Lemma set_touchLoc_twice (g : globals) (l l' : Point) :
  set_touchLoc (set_touchLoc g l) l' = set_touchLoc g l'.
Proof. reflexivity. Qed.

(** X9.  Once the program handle is set, the callbacks cannot end the
    process and change nothing but the touch location; every [draw] among
    them issues one draw call per piece. *)
Theorem run_ready_state lib drv (cs : list callback) (g : globals)
  (t : trace) :
  programValue (program g) <> 0 ->
  exists evs,
    run lib drv cs g t =
      Returned (set_touchLoc g (lastTouch cs (touchLoc g))) (t ++ evs) /\
    List.length (drawCalls evs) =
      (List.length (filter (fun c => match c with
                                     | Draw _ => true
                                     | TouchEvent _ => false
                                     end) cs)
       * List.length (pieces g))%nat.
Proof.
  revert g t. induction cs as [|c cs IH]; intros g t Hnz.
  - exists []. simpl. unfold ret. now rewrite set_touchLoc_same, app_nil_r.
  - cbn [run]. unfold bind. destruct c as [geo|tch]; cbn [callback_run].
    + rewrite draw_ready by assumption.
      destruct (IH g (t ++ frame_events lib geo g) Hnz) as (evs & -> & Hl).
      exists (frame_events lib geo g ++ evs). rewrite app_assoc.
      split; [reflexivity|].
      rewrite drawCalls_app, length_app, Hl, frame_drawCalls, length_map.
      cbn [filter List.length]. lia.
    + rewrite touch_returned.
      destruct (IH (set_touchLoc g (Loc tch)) (t ++ [log_PrintTouch tch])
                   Hnz) as (evs & -> & Hl).
      exists (log_PrintTouch tch :: evs). rewrite <- app_assoc.
      split; [reflexivity|]. exact Hl.
Qed.

Lemma run_ready_state_witness :
  exists evs,
    run Demo.lib Demo.failing
        [ Draw Demo.screen;
          TouchEvent (mkTouch 0 1 (mkPoint F32.five F32.half));
          Draw Demo.screen ]
        (set_program (globals_init Demo.assets) (mkProgram 7)) [] =
      Returned
        (set_touchLoc (set_program (globals_init Demo.assets) (mkProgram 7))
                      (mkPoint F32.five F32.half))
        ([] ++ evs) /\
    List.length (drawCalls evs) = (2 * 12)%nat.
Proof.
  apply (run_ready_state Demo.lib Demo.failing
           [ Draw Demo.screen;
             TouchEvent (mkTouch 0 1 (mkPoint F32.five F32.half));
             Draw Demo.screen ]
           (set_program (globals_init Demo.assets) (mkProgram 7)) []).
  discriminate.
Defined.

(** ** Before the program is created *)

Lemma Returned_inj {A} (a b : A) (t u : trace) :
  Returned a t = Returned b u -> a = b /\ t = u.
Proof. intro H. now inversion H. Qed.

Lemma failure_no_drawCalls (r : Program * option string) (m : string)
  (l : list event) :
  drawCalls ([ gl_Enable gl.DEPTH_TEST;
               glutil_CreateProgram vertexShader fragmentShader r;
               log_Printf m ] ++ log_Printf "example/basic rendering initialized"
                              :: l) = drawCalls l /\
  count isGenBuffer
        ([ gl_Enable gl.DEPTH_TEST;
           glutil_CreateProgram vertexShader fragmentShader r;
           log_Printf m ] ++ log_Printf "example/basic rendering initialized"
                          :: l) = count isGenBuffer l.
Proof. split; reflexivity. Qed.

(** X10.  As long as the program handle is zero, nothing has been drawn:
    no buffer has been generated, the pieces are as declared, with vertex
    count 0, and every draw call issued so far was for 0 vertices.
    [glutil.CreateProgram] is taken to return a non-zero program when it
    reports no error. *)
Theorem nothing_drawn_before_ready lib drv (a : Assets) (g : globals)
  (t : trace) :
  (forall t, snd (created drv t) = None ->
             programValue (fst (created drv t)) <> 0) ->
  reachable lib drv a g t ->
  programValue (program g) = 0 ->
  pieces g = pieces_lit a /\
  count isGenBuffer t = 0%nat /\
  Forall (fun c => c = (gl.TRIANGLES, 0, 0)) (drawCalls t).
Proof.
  intros Hok. induction 1 as [|g t c g' t' _ IH Hrun].
  - intros _. repeat split. constructor.
  - intro Hz'. destruct c as [geo|tch]; cbn [callback_run] in Hrun.
    + destruct (Z.eq_dec (programValue (program g)) 0) as [Hz|Hnz].
      * destruct (IH Hz) as (Hps & Hgen & Hdc).
        rewrite draw_init in Hrun by assumption.
        destruct (snd (created drv t)) as [err|] eqn:Hc.
        -- rewrite (initGL_failure _ _ _ _ _ Hc) in Hrun.
           apply Returned_inj in Hrun. destruct Hrun as (<- & <-).
           cbn [pieces set_program].
           split; [assumption|].
           rewrite <- app_assoc. rewrite count_app, drawCalls_app, Hgen.
           destruct (failure_no_drawCalls (created drv t)
                       (String.append "error creating GL program: " err)
                       (frame_events lib geo
                          (set_program g (fst (created drv t)))))
             as (-> & ->).
           rewrite (no_setup_count isGenBuffer (frame_events _ _ _))
             by auto using frame_events_no_setup.
           split; [reflexivity|].
           rewrite frame_drawCalls. cbn [pieces set_program]. rewrite Hps.
           apply Forall_app. split; [assumption|]. repeat constructor.
        -- pose proof (initGL_success lib drv g t Hc) as Hi.
           unfold appends in Hi.
           destruct (initGL lib drv g t) as [g1 t1|t1]; [|discriminate Hrun].
           injection Hrun as <- <-.
           destruct Hi as (evs & _ & _ & _ & _ & Hp & _).
           exfalso. apply (Hok t Hc). now rewrite <- Hp.
      * rewrite draw_ready in Hrun by assumption.
        injection Hrun as <- <-. contradiction.
    + rewrite touch_returned in Hrun. injection Hrun as <- <-.
      destruct (IH Hz') as (Hps & Hgen & Hdc). cbn [pieces set_touchLoc].
      rewrite count_app, drawCalls_app, Hgen. cbn [drawCalls app].
      rewrite app_nil_r. auto.
Qed.

Lemma nothing_drawn_before_ready_witness :
  exists g t,
    reachable Demo.lib Demo.failing Demo.assets g t /\
    List.length (drawCalls t) = 24%nat /\
    pieces g = pieces_lit Demo.assets /\
    count isGenBuffer t = 0%nat /\
    Forall (fun c => c = (gl.TRIANGLES, 0, 0)) (drawCalls t).
Proof.
  destruct (draw Demo.lib Demo.failing Demo.screen
                 (globals_init Demo.assets) []) as [g1 t1|t1] eqn:E1;
    [|vm_compute in E1; discriminate E1].
  destruct (draw Demo.lib Demo.failing Demo.screen g1 t1)
    as [g2 t2|t2] eqn:E2;
    [|vm_compute in E1; injection E1 as <- <-; vm_compute in E2;
      discriminate E2].
  assert (Hreach : reachable Demo.lib Demo.failing Demo.assets g2 t2).
  { eapply reachable_step with (c := Draw Demo.screen); [|exact E2].
    eapply reachable_step with (c := Draw Demo.screen); [|exact E1].
    apply reachable_start. }
  assert (Hz : programValue (program g2) = 0 /\
               List.length (drawCalls t2) = 24%nat).
  { vm_compute in E1. injection E1 as <- <-. vm_compute in E2.
    injection E2 as <- <-. split; reflexivity. }
  destruct Hz as (Hz & Hlen).
  exists g2, t2. split; [assumption|]. split; [assumption|].
  apply (nothing_drawn_before_ready Demo.lib Demo.failing Demo.assets g2 t2);
    [|assumption|assumption].
  intros t Hc. discriminate Hc.
Defined.

(** ** The colours of a frame *)

Lemma reachable_assets lib drv (a : Assets) (g : globals) (t : trace) :
  reachable lib drv a g t ->
  Forall2 same_asset (pieces_lit a) (pieces g).
Proof.
  induction 1 as [|g t c g' t' _ IH Hrun]; [apply same_asset_refl|].
  destruct c as [geo|tch]; cbn [callback_run] in Hrun.
  - destruct (Z.eq_dec (programValue (program g)) 0) as [Hz|Hnz].
    + rewrite draw_init in Hrun by assumption.
      destruct (snd (created drv t)) as [err|] eqn:Hc.
      * rewrite (initGL_failure _ _ _ _ _ Hc) in Hrun.
        apply Returned_inj in Hrun. destruct Hrun as (<- & _). exact IH.
      * pose proof (initGL_success lib drv g t Hc) as Hi.
        unfold appends in Hi.
        destruct (initGL lib drv g t) as [g1 t1|t1]; [|discriminate Hrun].
        apply Returned_inj in Hrun. destruct Hrun as (<- & _).
        destruct Hi as (evs & _ & _ & _ & _ & _ & Hf & _).
        now destruct (initialised_same lib _ _ _ IH Hf).
    + rewrite draw_ready in Hrun by assumption.
      apply Returned_inj in Hrun. destruct Hrun as (<- & _). exact IH.
  - rewrite touch_returned in Hrun.
    apply Returned_inj in Hrun. destruct Hrun as (<- & _). exact IH.
Qed.

(** X11.  In every frame the process can run, initialised or not, the
    colours written are the colours the pieces were declared with, each
    written twice in a row (diffuse, then ambient), in the order of
    declaration: fur, skin five times, white, fur twice, skin, white
    twice. *)
Theorem frame_colours lib drv (a : Assets) (geo : Geom) (g g' : globals)
  (t t' : trace) :
  reachable lib drv a g t ->
  draw lib drv geo g t = Returned g' t' ->
  exists evs,
    t' = t ++ evs /\
    map snd (vec4Writes evs) =
      flat_map (fun c => [c; c])
               [ gopherFur; gopherSkin; gopherSkin; gopherSkin; gopherSkin;
                 gopherSkin; white; gopherFur; gopherFur; gopherSkin; white;
                 white ].
Proof.
  intros Hreach Hd.
  assert (Hreach' : reachable lib drv a g' t')
    by (eapply reachable_step with (c := Draw geo); eassumption).
  apply reachable_assets in Hreach'.
  destruct (draw_returned _ _ _ _ _ _ _ Hd) as (evs0 & -> & Hn & _ & _).
  exists (evs0 ++ frame_events lib geo g'). split; [reflexivity|].
  rewrite vec4Writes_app, (vec4Writes_none evs0 Hn), frame_vec4Writes.
  cbn [app].
  change [ gopherFur; gopherSkin; gopherSkin; gopherSkin; gopherSkin;
           gopherSkin; white; gopherFur; gopherFur; gopherSkin; white;
           white ] with (map color (pieces_lit a)).
  clear - Hreach'. induction Hreach' as [|p0 p ps0 ps (_ & _ & Hc) _ IH];
    [reflexivity|].
  cbn [flat_map map app snd]. now rewrite IH, Hc.
Qed.

Lemma frame_colours_witness :
  exists g' t' evs,
    draw Demo.lib Demo.failing Demo.screen (globals_init Demo.corrupt) [] =
      Returned g' t' /\
    t' = [] ++ evs /\
    map snd (vec4Writes evs) =
      flat_map (fun c => [c; c])
               [ gopherFur; gopherSkin; gopherSkin; gopherSkin; gopherSkin;
                 gopherSkin; white; gopherFur; gopherFur; gopherSkin; white;
                 white ].
Proof.
  destruct (draw Demo.lib Demo.failing Demo.screen
                 (globals_init Demo.corrupt) [])
    as [g' t'|t'] eqn:E; [|vm_compute in E; discriminate E].
  destruct (frame_colours Demo.lib Demo.failing Demo.corrupt Demo.screen
              (globals_init Demo.corrupt) g' [] t'
              (reachable_start _ _ _) E) as (evs & H).
  exists g', t', evs. split; [reflexivity|exact H].
Defined.

(** ** The edges of the surface *)

Lemma F32_angle_full_turn :
  F32.mul (F32.mul F32.two F32.pi) F32.one = F32.mul F32.two F32.pi.
Proof. reflexivity. Qed.

(** X12.  On a surface whose width is a finite non-zero number, a touch
    at x = width puts the camera at the angle float32(2 pi) exactly, the
    fraction being exactly 1; a touch at x = 0 puts it at the angle zero.
    The two positions are those of one full turn, computed from two
    different arguments of [Sin] and [Cos]. *)
Theorem camera_at_edges lib (geo : Geom) (g : globals) :
  F32.finite_nonzero (Width geo) = true ->
  (X (touchLoc g) = Width geo ->
   frac geo g = F32.one /\
   eye lib geo g =
     mkVec3 F32.zero
            (F32.mul F32.five (Sin lib (F32.mul F32.two F32.pi)))
            (F32.neg (F32.mul F32.five
                              (Cos lib (F32.mul F32.two F32.pi))))) /\
  (X (touchLoc g) = F32.zero ->
   exists s,
     frac geo g = S754_zero s /\
     eye lib geo g =
       mkVec3 F32.zero
              (F32.mul F32.five (Sin lib (S754_zero s)))
              (F32.neg (F32.mul F32.five (Cos lib (S754_zero s))))).
Proof.
  intro Hfin. unfold eye, cameraY, cameraZ, frac.
  destruct (Width geo) as [| | |s m e]; try discriminate Hfin.
  split; intros ->.
  - rewrite F32_div_same, F32_angle_full_turn. auto.
  - exists s. split; [reflexivity|]. destruct s; reflexivity.
Qed.

Lemma camera_at_edges_witness :
  frac Demo.screen
       (set_touchLoc (globals_init Demo.assets)
                     (mkPoint (F32.lit 480 1) F32.zero)) = F32.one /\
  exists s,
    frac Demo.screen (globals_init Demo.assets) = S754_zero s.
Proof.
  split.
  - now apply (camera_at_edges Demo.lib Demo.screen
                 (set_touchLoc (globals_init Demo.assets)
                               (mkPoint (F32.lit 480 1) F32.zero)) eq_refl).
  - destruct (camera_at_edges Demo.lib Demo.screen
                (globals_init Demo.assets) eq_refl) as (_ & H).
    destruct (H eq_refl) as (s & Hs & _). now exists s.
Defined.

(** ** The uniform that is never resolved *)

Lemma looks_up_upload (name : string) (evs : list event) :
  Forall (fun e => isUpload e = true) evs -> count (looks_up name) evs = 0%nat.
Proof. intro H. apply count_none. revert H. apply Forall_impl. now intros []. Qed.

Lemma looks_up_no_setup (name : string) (evs : list event) :
  Forall (fun e => isSetup e = false) evs -> count (looks_up name) evs = 0%nat.
Proof. intro H. apply count_none. revert H. apply Forall_impl. now intros []. Qed.

Lemma initGL_shininess lib drv (g : globals) (t : trace) :
  appends (initGL lib drv g) t (fun r evs =>
    count (looks_up "materialShininess") evs = 0%nat /\
    match r with
    | Some g' => materialShininess g' = materialShininess g
    | None => True
    end).
Proof.
  destruct (snd (created drv t)) as [err|] eqn:Hc.
  - unfold appends. rewrite (initGL_failure _ _ _ _ _ Hc).
    eexists. split; [reflexivity|]. split; reflexivity.
  - unfold initGL. apply appends_emit. apply appends_ask.
    fold (created drv t). cbv beta zeta. rewrite Hc.
    eapply appends_bind; [apply initGL_range_spec| |].
    + intros ps ev (_ & Hu & _). cbv beta zeta.
      unfold attrib, uniform, initMVP.
      cbn [pieces set_program set_pieces program].
      step_calls. apply appends_ret.
      change (?a :: ?b :: ev ++ ?c) with ([a; b] ++ ev ++ c).
      rewrite !count_app, (looks_up_upload _ ev Hu).
      split; reflexivity.
    + intros ev (_ & _ & ev0 & err & -> & Hu).
      change (?a :: ?b :: ?l) with ([a; b] ++ l).
      rewrite !count_app, (looks_up_upload _ ev0 Hu).
      split; reflexivity.
Qed.

(** X13.  The uniform [materialShininess] is declared but never resolved:
    in every state the process reaches it still has the zero value, and no
    location has been looked up under its name. *)
Theorem materialShininess_unused lib drv (a : Assets) (g : globals)
  (t : trace) :
  reachable lib drv a g t ->
  materialShininess g = mkUniform 0 /\
  count (looks_up "materialShininess") t = 0%nat.
Proof.
  induction 1 as [|g t c g' t' _ (IH1 & IH2) Hrun]; [split; reflexivity|].
  destruct c as [geo|tch]; cbn [callback_run] in Hrun.
  - destruct (Z.eq_dec (programValue (program g)) 0) as [Hz|Hnz].
    + rewrite draw_init in Hrun by assumption.
      pose proof (initGL_shininess lib drv g t) as Hi. unfold appends in Hi.
      destruct (initGL lib drv g t) as [g1 t1|t1]; [|discriminate Hrun].
      apply Returned_inj in Hrun. destruct Hrun as (<- & <-).
      destruct Hi as (evs & -> & Hcount & Hm).
      split; [congruence|].
      change (log_Printf ?m :: ?l) with ([log_Printf m] ++ l).
      rewrite !count_app, IH2, Hcount.
      now rewrite (looks_up_no_setup _ _ (frame_events_no_setup lib geo g1)).
    + rewrite draw_ready in Hrun by assumption.
      apply Returned_inj in Hrun. destruct Hrun as (<- & <-).
      split; [assumption|].
      rewrite count_app, IH2.
      now rewrite (looks_up_no_setup _ _ (frame_events_no_setup lib geo g)).
  - rewrite touch_returned in Hrun.
    apply Returned_inj in Hrun. destruct Hrun as (<- & <-).
    split; [assumption|]. now rewrite count_app, IH2.
Qed.

Lemma materialShininess_unused_witness :
  exists g t,
    reachable Demo.lib Demo.driver Demo.assets g t /\
    count isLookup t = 10%nat /\
    materialShininess g = mkUniform 0 /\
    count (looks_up "materialShininess") t = 0%nat.
Proof.
  destruct (draw Demo.lib Demo.driver Demo.screen
                 (globals_init Demo.assets) []) as [g1 t1|t1] eqn:E1;
    [|vm_compute in E1; discriminate E1].
  assert (Hreach : reachable Demo.lib Demo.driver Demo.assets g1 t1).
  { eapply reachable_step with (c := Draw Demo.screen); [|exact E1].
    apply reachable_start. }
  exists g1, t1. split; [assumption|]. split.
  - vm_compute in E1. injection E1 as <- <-. reflexivity.
  - apply (materialShininess_unused Demo.lib Demo.driver Demo.assets g1 t1
             Hreach).
Defined.

(** ** The attribute arrays of a frame *)

Lemma arrays_after_app (a b : trace) (en : Z -> bool) :
  arrays_after (a ++ b) en = arrays_after b (arrays_after a en).
Proof. apply fold_left_app. Qed.

Lemma draws_enabled_app (need : list Z) (a b : trace) (en : Z -> bool) :
  draws_enabled need en (a ++ b) =
  draws_enabled need en a && draws_enabled need (arrays_after a en) b.
Proof.
  revert en. induction a as [|e a IH]; intro en; [reflexivity|].
  cbn [app draws_enabled]. rewrite IH. unfold arrays_after.
  cbn [fold_left]. now rewrite andb_assoc.
Qed.

Lemma arrays_pieces (g : globals) (ps : list piece) (need : list Z)
  (en : Z -> bool) :
  forallb en need = true ->
  arrays_after (flat_map (piece_events g) ps) en = en /\
  draws_enabled need en (flat_map (piece_events g) ps) = true.
Proof.
  intro Hen. induction ps as [|p ps (IH1 & IH2)]; [split; reflexivity|].
  cbn [flat_map]. rewrite arrays_after_app, draws_enabled_app.
  change (arrays_after (piece_events g p) en) with en.
  rewrite IH1, IH2. split; [reflexivity|].
  unfold piece_events. cbn [draws_enabled isDrawArrays arrays_step].
  now rewrite Hen.
Qed.

Lemma frame_events_split lib (geo : Geom) (g : globals) :
  exists pre,
    Forall (fun e => isDrawArrays e = false /\ isArraySwitch e = false) pre /\
    frame_events lib geo g =
    pre ++ [ gl_EnableVertexAttribArray (normal g);
             gl_EnableVertexAttribArray (position g) ]
        ++ flat_map (piece_events g) (pieces g)
        ++ [ gl_DisableVertexAttribArray (normal g);
             gl_DisableVertexAttribArray (position g);
             debug_DrawFPS ].
Proof.
  exists
    [ gl_ClearColor F32.zero F32.zero F32.zero F32.one;
      gl_Clear (Z.lor gl.DEPTH_BUFFER_BIT gl.COLOR_BUFFER_BIT);
      gl_UseProgram (program g);
      Uniform_WriteMat4 (projection g)
        (Perspective lib Mat4_zero F32.pi_4
                     (F32.div (Width geo) (Height geo))
                     (F32.lit 1 10) (F32.lit 200 1));
      Uniform_WriteMat4 (view g)
        (LookAt lib Mat4_zero (eye lib geo g) center up);
      Uniform_WriteMat4 (model g)
        (Scale lib (Identity lib Mat4_zero) (Identity lib Mat4_zero)
               (scale geo g) (scale geo g) (scale geo g));
      gl_Uniform3f (lightDirection g) F32.half F32.half F32.zero;
      gl_Uniform4f (materialDiffuseFactor g) (F32.lit 8 10) (F32.lit 8 10)
                   (F32.lit 8 10) F32.one;
      gl_Uniform4f (materialAmbientFactor g) F32.half F32.half F32.half
                   F32.half ].
  split; [|reflexivity]. repeat (constructor; [split; reflexivity|]).
  constructor.
Qed.

Lemma arrays_quiet (need : list Z) (pre : trace) (en : Z -> bool) :
  Forall (fun e => isDrawArrays e = false /\ isArraySwitch e = false) pre ->
  arrays_after pre en = en /\ draws_enabled need en pre = true.
Proof.
  intro H. revert en. induction H as [|e pre (Hd & Hs) _ IH]; intro en;
    [split; reflexivity|].
  unfold arrays_after. cbn [fold_left draws_enabled]. rewrite Hd.
  replace (arrays_step en e) with en by (now destruct e).
  apply IH.
Qed.

(** X14.  In every frame, each draw call is made while the arrays of the
    position and of the normal attribute are both enabled, and the frame
    leaves both disabled, whichever arrays were enabled before it. *)
Theorem frame_attribute_arrays lib drv (geo : Geom) (g g' : globals)
  (t t' : trace) (en : Z -> bool) :
  draw lib drv geo g t = Returned g' t' ->
  exists evs0 frame,
    t' = t ++ evs0 ++ frame /\
    Forall (fun e => isRender e = false) evs0 /\
    List.length (drawCalls frame) = List.length (pieces g') /\
    draws_enabled [attribValue (position g'); attribValue (normal g')]
                  en frame = true /\
    arrays_after frame en (attribValue (position g')) = false /\
    arrays_after frame en (attribValue (normal g')) = false.
Proof.
  intro Hd. destruct (draw_returned _ _ _ _ _ _ _ Hd)
    as (evs0 & -> & Hn & _ & _).
  exists evs0, (frame_events lib geo g'). split; [reflexivity|].
  split; [assumption|]. split; [now rewrite frame_drawCalls, length_map|].
  destruct (frame_events_split lib geo g') as (pre & Hpre & ->).
  set (need := [attribValue (position g'); attribValue (normal g')]).
  destruct (arrays_quiet need pre en Hpre) as (Hq1 & Hq2).
  set (en2 := arrays_after [ gl_EnableVertexAttribArray (normal g');
                             gl_EnableVertexAttribArray (position g') ] en).
  assert (Hen2 : forallb en2 need = true).
  { unfold en2, need, arrays_after. cbn [fold_left arrays_step forallb].
    rewrite !Z.eqb_refl.
    now destruct (attribValue (normal g') =? attribValue (position g')). }
  destruct (arrays_pieces g' (pieces g') need en2 Hen2) as (Hp1 & Hp2).
  rewrite !draws_enabled_app, !arrays_after_app, Hq1, Hq2.
  fold en2. rewrite Hp1, Hp2.
  split; [reflexivity|].
  unfold arrays_after. cbn [fold_left arrays_step].
  rewrite !Z.eqb_refl.
  now destruct (attribValue (normal g') =? attribValue (position g')).
Qed.

Lemma frame_attribute_arrays_witness :
  exists g' t' evs0 frame,
    draw Demo.lib Demo.driver Demo.screen (globals_init Demo.assets) [] =
      Returned g' t' /\
    t' = [] ++ evs0 ++ frame /\
    Forall (fun e => isRender e = false) evs0 /\
    List.length (drawCalls frame) = List.length (pieces g') /\
    draws_enabled [attribValue (position g'); attribValue (normal g')]
                  (fun _ => false) frame = true /\
    arrays_after frame (fun _ => false) (attribValue (position g')) = false /\
    arrays_after frame (fun _ => false) (attribValue (normal g')) = false.
Proof.
  destruct (draw Demo.lib Demo.driver Demo.screen
                 (globals_init Demo.assets) [])
    as [g' t'|t'] eqn:E; [|vm_compute in E; discriminate E].
  destruct (frame_attribute_arrays Demo.lib Demo.driver Demo.screen
              (globals_init Demo.assets) g' [] t' (fun _ => false) E)
    as (evs0 & frame & H).
  exists g', t', evs0, frame. split; [reflexivity|exact H].
Defined.

(** ** Depth testing *)

Lemma depth_tested_app (on : bool) (a b : trace) :
  depth_tested on (a ++ b) =
  depth_tested on a && depth_tested (on || existsb isEnableDepthTest a) b.
Proof.
  revert on. induction a as [|e a IH]; intro on.
  - cbn [app depth_tested existsb]. now rewrite orb_false_r.
  - cbn [app depth_tested existsb]. rewrite IH.
    now rewrite andb_assoc, orb_assoc.
Qed.

Lemma depth_tested_on (t : trace) : depth_tested true t = true.
Proof.
  induction t as [|e t IH]; [reflexivity|].
  cbn [depth_tested orb]. rewrite IH. now destruct (isRender e).
Qed.

Lemma depth_tested_no_render (on : bool) (t : trace) :
  Forall (fun e => isRender e = false) t -> depth_tested on t = true.
Proof.
  intro H. revert on. induction H as [|e t He _ IH]; intro on;
    [reflexivity|].
  cbn [depth_tested]. now rewrite He, IH.
Qed.

(** Each [draw] with the zero handle starts with
    [gl.Enable(gl.DEPTH_TEST)]. *)
Lemma draw_init_enables lib drv (geo : Geom) (g g' : globals)
  (t t' : trace) :
  programValue (program g) = 0 ->
  draw lib drv geo g t = Returned g' t' ->
  exists rest, t' = t ++ gl_Enable gl.DEPTH_TEST :: rest.
Proof.
  intros Hz Hd. rewrite draw_init in Hd by assumption.
  destruct (snd (created drv t)) as [err|] eqn:Hc.
  - rewrite (initGL_failure _ _ _ _ _ Hc) in Hd.
    apply Returned_inj in Hd. destruct Hd as (_ & <-).
    rewrite <- app_assoc. eexists. reflexivity.
  - destruct (initGL lib drv g t) as [g1 t1|t1] eqn:Hi; [|discriminate Hd].
    apply Returned_inj in Hd. destruct Hd as (_ & <-).
    destruct (appends_returned _ _ _ _ _ (initGL_events lib drv g t Hc) Hi)
      as (evs & -> & rest & -> & _).
    rewrite <- !app_assoc. eexists. reflexivity.
Qed.

(** X15.  Depth testing is switched on before anything is rendered: in
    every trace of the process, each clear, uniform write and draw call
    comes after a [gl.Enable(gl.DEPTH_TEST)]. *)
Theorem depth_test_first lib drv (a : Assets) (g : globals) (t : trace) :
  reachable lib drv a g t ->
  depth_tested false t = true /\
  (programValue (program g) <> 0 -> existsb isEnableDepthTest t = true).
Proof.
  induction 1 as [|g t c g' t' _ (IH1 & IH2) Hrun].
  - split; [reflexivity|]. intros []. reflexivity.
  - destruct c as [geo|tch]; cbn [callback_run] in Hrun.
    + destruct (Z.eq_dec (programValue (program g)) 0) as [Hz|Hnz].
      * destruct (draw_init_enables _ _ _ _ _ _ _ Hz Hrun) as (rest & ->).
        rewrite depth_tested_app, existsb_app, IH1.
        cbn [depth_tested existsb isRender isClear isUniformWrite
             isDrawArrays isEnableDepthTest orb andb].
        rewrite ?Z.eqb_refl, ?orb_true_r, ?depth_tested_on.
        cbn [orb andb]. rewrite ?orb_true_r, ?depth_tested_on. auto.
      * rewrite draw_ready in Hrun by assumption.
        apply Returned_inj in Hrun. destruct Hrun as (<- & <-).
        rewrite depth_tested_app, existsb_app, IH1, (IH2 Hnz).
        cbn [orb andb]. rewrite depth_tested_on. auto.
    + rewrite touch_returned in Hrun.
      apply Returned_inj in Hrun. destruct Hrun as (<- & <-).
      rewrite depth_tested_app, existsb_app, IH1.
      cbn [depth_tested existsb isRender isClear isUniformWrite
           isDrawArrays isEnableDepthTest orb andb set_touchLoc program].
      rewrite orb_false_r. auto.
Qed.

Lemma depth_test_first_witness :
  exists g t,
    reachable Demo.lib Demo.flaky Demo.assets g t /\
    count isRender t = 44%nat /\
    depth_tested false t = true /\
    (programValue (program g) <> 0 -> existsb isEnableDepthTest t = true).
Proof.
  destruct (draw Demo.lib Demo.flaky Demo.screen
                 (globals_init Demo.assets) []) as [g1 t1|t1] eqn:E1;
    [|vm_compute in E1; discriminate E1].
  assert (Hreach : reachable Demo.lib Demo.flaky Demo.assets g1 t1).
  { eapply reachable_step with (c := Draw Demo.screen); [|exact E1].
    apply reachable_start. }
  exists g1, t1. split; [assumption|]. split.
  - vm_compute in E1. injection E1 as <- <-. reflexivity.
  - apply (depth_test_first Demo.lib Demo.flaky Demo.assets g1 t1 Hreach).
Defined.
